(** * mapa-clima-cam: the upload form of [ClimateMapApp.tsx]

    A shallow embedding of the stateful core of the React component
    [web/src/components/ClimateMapApp.tsx]: the two file slots, the
    drag-and-drop surface, the submission handler with its network call,
    and the lifetime of the object URL created for the returned image.

    Conventions.
    - A React state cell [const [x, setX] = useState(..)] is a field of
      the record [App.State]; a setter is a record update.
    - The component is re-rendered after every event, so a handler that
      runs on an event reads the state as it is at that event.  A handler
      suspended at an [await] keeps the bindings of the render it was
      created in: what it reads after the [await] is recorded in
      [App.Pending] when the handler starts.
    - Calls into the browser ([fetch], [URL.createObjectURL],
      [URL.revokeObjectURL]) are recorded, in order, in an effect log. *)

From Stdlib Require Import NArith Ascii String.
From stdpp Require Import base decidable option list gmap strings.

Set Warnings "-register-all,-clear-no-such-hyp".
Local Open Scope string_scope.

(** ** Endpoint construction (lines 182-183) *)

Module Url.

(** [s.replace(/\/$/, "")]: the pattern has no flag, so [$] matches at the
    end of the input only, and the one [/] before it, if any, is dropped. *)
Fixpoint replace_trailing_slash (s : string) : string :=
  match s with
  | EmptyString => EmptyString
  | String c rest =>
      match rest with
      | EmptyString => if Ascii.eqb c "/"%char then EmptyString else s
      | String _ _ => String c (replace_trailing_slash rest)
      end
  end.

(** [backendUrl || (typeof window !== "undefined" ? window.location.origin : "")]:
    the empty string is the only falsy string.  [origin] is [None] where
    [window] is undefined. *)
Definition baseUrl (backendUrl : string) (origin : option string) : string :=
  if String.eqb backendUrl "" then default "" origin else backendUrl.

(** [`${baseUrl.replace(/\/$/, "")}/api/procesar/`] *)
Definition endpoint (backendUrl : string) (origin : option string) : string :=
  replace_trailing_slash (baseUrl backendUrl origin) +:+ "/api/procesar/".

(** [ends_with_slash s]: the last character of [s] is [/]. *)
Fixpoint ends_with_slash (s : string) : bool :=
  match s with
  | EmptyString => false
  | String c rest =>
      match rest with
      | EmptyString => Ascii.eqb c "/"%char
      | String _ _ => ends_with_slash rest
      end
  end.

(** [contains sub s]: [sub] occurs in [s]. *)
Definition contains (sub s : string) : Prop :=
  ∃ pre post, s = pre +:+ sub +:+ post.

End Url.

(** ** The body of an error response (lines 191-193) *)

Module Json.

(** A number of a parsed body is a double.  The code looks at one in two
    ways only: whether it is zero ([||] takes a zero for false; no body
    parses to [NaN]) and what [String] writes for it ([0.5], [1e+21],
    [12345678901234567000]).  A number is given here by these two. *)
Record number : Type := mkNumber {
  is_zero : bool;
  written : string
}.

(** What [response.json()] resolves to. *)
Inductive value : Type :=
| JNull
| JBool (b : bool)
| JNum (n : number)
| JStr (s : string)
| JArr (items : list value)
| JObj (fields : list (string * value)).

(** Own property [key] of a parsed object; of two members with one name
    the later one is kept. *)
Fixpoint get_field (key : string) (fields : list (string * value)) : option value :=
  match fields with
  | [] => None
  | (k, v) :: rest =>
      match get_field key rest with
      | Some w => Some w
      | None => if String.eqb k key then Some v else None
      end
  end.

(** The outcome of the property read [j.detail]: reading a property of
    [null] throws a [TypeError]; every other value answers, with
    [undefined] ([None]) where the property is missing. *)
Inductive access : Type :=
| Throws (message : string)
| Got (v : option value).

Definition null_read_message : string :=
  "Cannot read properties of null (reading 'detail')".

Definition get_detail (j : value) : access :=
  match j with
  | JNull => Throws null_read_message
  | JObj fields => Got (get_field "detail" fields)
  | _ => Got None
  end.

(** JavaScript truthiness, as [||] tests it. *)
Definition truthy (v : option value) : bool :=
  match v with
  | None => false
  | Some JNull => false
  | Some (JBool b) => b
  | Some (JNum n) => negb (is_zero n)
  | Some (JStr s) => negb (String.eqb s "")
  | Some (JArr _) => true
  | Some (JObj _) => true
  end.

Definition join (parts : list string) : string :=
  match parts with
  | [] => ""
  | p :: ps => fold_left (fun acc q => acc +:+ "," +:+ q) ps p
  end.

(** [String(v)], the message [new Error(v)] gets; [None] where the
    conversion throws a [TypeError]: an object with a member named
    [toString] has no callable [toString] left, and [valueOf] does not
    give a primitive.  An array is joined with commas, [null] elements as
    the empty string.  A number is written as [String] writes it. *)
Fixpoint to_string (v : value) : option string :=
  match v with
  | JNull => Some "null"
  | JBool true => Some "true"
  | JBool false => Some "false"
  | JNum n => Some (written n)
  | JStr s => Some s
  | JArr items =>
      join <$> mapM (fun x => match x with JNull => Some "" | _ => to_string x end) items
  | JObj fields =>
      match get_field "toString" fields with
      | Some _ => None
      | None => Some "[object Object]"
      end
  end.

Definition convert_message : string := "Cannot convert object to primitive value".

(** [d || fallback] *)
Definition or_else (d : option value) (fallback : string) : value :=
  match d with
  | Some v => if truthy d then v else JStr fallback
  | None => JStr fallback
  end.

End Json.

(** ** The drag-and-drop surface (lines 43-149) *)

Record File : Type := mkFile { file_name : string; file_size : N }.

Module Dropzone.

Inductive DragType : Type := dragenter | dragover | dragleave.

(** [handleDrag]: the new value of [isDragging]. *)
Definition handleDrag (ty : DragType) (isDragging : bool) : bool :=
  match ty with
  | dragenter | dragover => true
  | dragleave => false
  end.

(** [handleDrop]: [files] is [e.dataTransfer.files] ([None] when it is
    missing).  The result is the new value of [isDragging] and the
    arguments of the calls of [onFileSelect], in order. *)
Definition handleDrop (files : option (list File)) (isDragging : bool)
  : bool * list File :=
  (false,
   match files with
   | Some (f :: _) => [f]
   | _ => []
   end).

(** The picker's [onChange]: [e.target.files?.[0] && onFileSelect(e.target.files[0])]. *)
Definition onChange (files : option (list File)) : list File :=
  match files with
  | Some (f :: _) => [f]
  | _ => []
  end.

End Dropzone.

(** ** The component [ClimateMapApp] (lines 153-221) *)

(** An object URL, as [URL.createObjectURL] hands them out: the n-th one
    created on the page.  Such a URL is never the empty string, so as a
    [string | null] state it is truthy exactly when it is not [null]. *)
Definition ObjURL : Type := nat.

Inductive Effect : Type :=
| Fetch (endpoint : string) (pdf_part shp_part : File)
    (* fetch(endpoint, {method: "POST", body: formData}) with the parts "pdf" and "shp" *)
| CreateObjectURL (u : ObjURL)
| RevokeObjectURL (u : ObjURL).

Global Instance File_eq_dec : EqDecision File.
Proof. solve_decision. Defined.

Global Instance Effect_eq_dec : EqDecision Effect.
Proof. solve_decision. Defined.

Module App.

(** The [useState] cells of lines 154-160. *)
Record State : Type := mkState {
  pdf : option File;
  shp : option File;
  isProcessing : bool;
  resultImage : option ObjURL;
  errorDetails : option string;
  showConfig : bool;
  backendUrl : string
}.

Definition setPdf (v : option File) (s : State) : State :=
  mkState v (shp s) (isProcessing s) (resultImage s) (errorDetails s) (showConfig s) (backendUrl s).
Definition setShp (v : option File) (s : State) : State :=
  mkState (pdf s) v (isProcessing s) (resultImage s) (errorDetails s) (showConfig s) (backendUrl s).
Definition setIsProcessing (v : bool) (s : State) : State :=
  mkState (pdf s) (shp s) v (resultImage s) (errorDetails s) (showConfig s) (backendUrl s).
Definition setResultImage (v : option ObjURL) (s : State) : State :=
  mkState (pdf s) (shp s) (isProcessing s) v (errorDetails s) (showConfig s) (backendUrl s).
Definition setErrorDetails (v : option string) (s : State) : State :=
  mkState (pdf s) (shp s) (isProcessing s) (resultImage s) v (showConfig s) (backendUrl s).
Definition setShowConfig (v : bool) (s : State) : State :=
  mkState (pdf s) (shp s) (isProcessing s) (resultImage s) (errorDetails s) v (backendUrl s).
Definition setBackendUrl (v : string) (s : State) : State :=
  mkState (pdf s) (shp s) (isProcessing s) (resultImage s) (errorDetails s) (showConfig s) v.

(** What the page provides: [import.meta.env.PUBLIC_BACKEND_URL] and
    [window.location.origin] ([None] where [window] is undefined). *)
Record Env : Type := mkEnv {
  PUBLIC_BACKEND_URL : option string;
  origin : option string
}.

(** The state of the first render; [useState(import.meta.env.PUBLIC_BACKEND_URL || "")]. *)
Definition initial (env : Env) : State :=
  mkState None None false None None false
    (default "" (PUBLIC_BACKEND_URL env)).

(** What [fetch] and the reading of the body can come to.  [json] is
    [None] where [response.json()] rejects; [blob] is [inl message] where
    [response.blob()] rejects with an error of that message. *)
Record Response : Type := mkResponse {
  ok : bool;
  statusText : string;
  json : option Json.value;
  blob : string + string
}.

Inductive FetchOutcome : Type :=
| Rejected (message : string)   (* transport failure: [fetch] rejects *)
| Resolved (r : Response).

(** A call of [handleProcess] suspended at [await fetch(..)]: the
    bindings of its render that the rest of the body reads. *)
Record Pending : Type := mkPending {
  p_endpoint : string;
  p_resultImage : option ObjURL
}.

(** [handleProcess], lines 171-189: up to the [await]. *)
Definition handleProcess (env : Env) (s : State) : State * list Effect * option Pending :=
  match pdf s, shp s with
  | Some f, Some g =>
      let s1 := setErrorDetails None (setResultImage None (setIsProcessing true s)) in
      let endpoint := Url.endpoint (backendUrl s) (origin env) in
      (s1, [Fetch endpoint f g], Some (mkPending endpoint (resultImage s)))
  | _, _ => (s, [], None)
  end.

(** Lines 191-194: the message of the [Error] thrown for a response
    that is not ok. *)
Definition thrown_message (r : Response) : string :=
  let errJson :=
    match json r with
    | Some j => j
    | None => Json.JObj [("detail", Json.JStr (statusText r))]
    end in
  match Json.get_detail errJson with
  | Json.Throws m => m
  | Json.Got d =>
      default Json.convert_message
        (Json.to_string (Json.or_else d "Error processing files"))
  end.

(** The [try] block after the [await]: [inl] is the message of what was
    thrown, [inr] the blob that was read. *)
Definition try_body (o : FetchOutcome) : string + string :=
  match o with
  | Rejected m => inl m
  | Resolved r =>
      if ok r then
        blob r
      else inl (thrown_message r)
  end.

(** [if (resultImage) { URL.revokeObjectURL(resultImage); }], lines 200-202
    and 214-216. *)
Definition revocation (resultImage : option ObjURL) : list Effect :=
  match resultImage with
  | Some u => [RevokeObjectURL u]
  | None => []
  end.

(** [`${err.message} (URL: ${endpoint})`] *)
Definition error_text (message endpoint : string) : string :=
  message +:+ " (URL: " +:+ endpoint +:+ ")".

(** [handleProcess], lines 190-209: from the [await] on.  [fresh] is the
    URL the next [URL.createObjectURL] returns; the result holds the new
    state, the calls made, and whether [fresh] was used. *)
Definition handleProcess_resume (p : Pending) (o : FetchOutcome) (fresh : ObjURL)
    (s : State) : State * list Effect * bool :=
  match try_body o with
  | inr _ =>
      let imageUrl := fresh in
      (setIsProcessing false (setResultImage (Some imageUrl) s),
       CreateObjectURL imageUrl :: revocation (p_resultImage p), true)
  | inl message =>
      (setIsProcessing false
         (setErrorDetails (Some (error_text message (p_endpoint p))) s),
       [], false)
  end.

(** [handleReset], lines 212-221. *)
Definition handleReset (s : State) : State * list Effect :=
  (setErrorDetails None (setResultImage None (setShp None (setPdf None s))),
   revocation (resultImage s)).

(** [disabled={!pdf || !shp || isProcessing}], line 290. *)
Definition submit_disabled (s : State) : bool :=
  negb (bool_decide (is_Some (pdf s))) || negb (bool_decide (is_Some (shp s)))
  || isProcessing s.

(** The test [(!pdf || !shp)] of lines 293, 306 and 313, negated: the
    button is drawn as ready to submit. *)
Definition readyToSubmit (s : State) : bool :=
  negb (negb (bool_decide (is_Some (pdf s))) || negb (bool_decide (is_Some (shp s)))).

End App.

(** ** The page: the component, its requests in flight and the browser *)

Module UI.
Import App.

Record World : Type := mkWorld {
  ui : State;                 (* the component's state *)
  inflight : list Pending;    (* calls of [handleProcess] waiting for [fetch] *)
  next_url : ObjURL;          (* the next object URL of the browser *)
  log : list Effect           (* the browser calls made so far, oldest first *)
}.

Definition init (env : Env) : World := mkWorld (initial env) [] 0 [].

Inductive Slot : Type := PdfSlot | ShpSlot.

Global Instance Slot_eq_dec : EqDecision Slot.
Proof. solve_decision. Defined.

(** What the user can do on one [Dropzone]. *)
Inductive SlotAction : Type :=
| Drop (files : option (list File))     (* [onDrop] *)
| Pick (files : option (list File))     (* the picker's [onChange] *)
| RemoveFile.                           (* the [FileCard] button: [onFileSelect(null)] *)

Inductive Event : Type :=
| OnSlot (sl : Slot) (a : SlotAction)
| ClickSubmit                           (* the button of line 288 *)
| ClickReset                            (* the button of line 355 *)
| Settle (i : nat) (o : FetchOutcome)   (* the i-th request in flight completes *)
| EditBackendUrl (v : string)           (* the input of line 254 *)
| ToggleConfig.                         (* the button of line 233 *)

(** The arguments [onFileSelect] is called with. *)
Definition selections (a : SlotAction) : list (option File) :=
  match a with
  | Drop files => Some <$> (Dropzone.handleDrop files false).2
  | Pick files => Some <$> Dropzone.onChange files
  | RemoveFile => [None]
  end.

(** [onFileSelect={(f) => setPdf(f)}] and [onFileSelect={(f) => setShp(f)}]. *)
Definition onFileSelect (sl : Slot) (f : option File) (s : State) : State :=
  match sl with
  | PdfSlot => setPdf f s
  | ShpSlot => setShp f s
  end.

Definition with_ui (s : State) (w : World) : World :=
  mkWorld s (inflight w) (next_url w) (log w).

(** A call of [handleProcess] on the page. *)
Definition start (env : Env) (w : World) : World :=
  let '(s, effects, p) := handleProcess env (ui w) in
  mkWorld s (inflight w ++ option_list p) (next_url w) (log w ++ effects).

(** The rest of the call [p], the [i]-th in flight, once [fetch] has come to [o]. *)
Definition settle (i : nat) (p : Pending) (o : FetchOutcome) (w : World) : World :=
  let '(s, effects, used) := handleProcess_resume p o (next_url w) (ui w) in
  mkWorld s (delete i (inflight w))
    (if used then S (next_url w) else next_url w) (log w ++ effects).

Definition reset (w : World) : World :=
  let '(s, effects) := handleReset (ui w) in
  mkWorld s (inflight w) (next_url w) (log w ++ effects).

(** One event.  A disabled button does not call its handler, and the
    reset button exists only inside [{resultImage && ( .. )}]. *)
Definition step (env : Env) (ev : Event) (w : World) : World :=
  match ev with
  | OnSlot sl a =>
      with_ui (foldl (fun s f => onFileSelect sl f s) (ui w) (selections a)) w
  | ClickSubmit => if submit_disabled (ui w) then w else start env w
  | ClickReset =>
      match resultImage (ui w) with
      | Some _ => reset w
      | None => w
      end
  | Settle i o =>
      match inflight w !! i with
      | Some p => settle i p o w
      | None => w
      end
  | EditBackendUrl v => with_ui (setBackendUrl v (ui w)) w
  | ToggleConfig => with_ui (setShowConfig (negb (showConfig (ui w))) (ui w)) w
  end.

Definition run (env : Env) (evs : list Event) (w : World) : World :=
  foldl (fun w ev => step env ev w) w evs.

(** Counting in the log. *)
Definition creations (u : ObjURL) (l : list Effect) : nat :=
  count_occ Effect_eq_dec l (CreateObjectURL u).

Definition releases (u : ObjURL) (l : list Effect) : nat :=
  count_occ Effect_eq_dec l (RevokeObjectURL u).

Definition is_fetch (e : Effect) : bool :=
  match e with
  | Fetch _ _ _ => true
  | _ => false
  end.

Definition fetches (l : list Effect) : nat := length (filter is_fetch l).

(** The object URLs the browser holds after the calls of [l]. *)
Definition live_urls (l : list Effect) : gset ObjURL :=
  foldl (fun acc e =>
           match e with
           | CreateObjectURL u => {[u]} ∪ acc
           | RevokeObjectURL u => acc ∖ {[u]}
           | Fetch _ _ _ => acc
           end) ∅ l.

(** The object URLs the component can still name: the one on display and
    those captured by calls in flight. *)
Definition retained (w : World) : list ObjURL :=
  option_list (resultImage (ui w)) ++ omap p_resultImage (inflight w).

(** The file a slot that held [cur] holds after a sequence of actions on it. *)
Definition slot_after (cur : option File) (acts : list SlotAction) : option File :=
  foldl (fun _ f => f) cur (acts ≫= selections).

Definition on_slot (sl : Slot) (acts : list (Slot * SlotAction)) : list SlotAction :=
  snd <$> filter (fun a => a.1 = sl) acts.

Definition slot_events (acts : list (Slot * SlotAction)) : list Event :=
  (fun a => OnSlot a.1 a.2) <$> acts.

Definition is_settle (ev : Event) : bool :=
  match ev with
  | Settle _ _ => true
  | _ => false
  end.

(** ** The invariant of the page *)

(** At most one call is in flight, [isProcessing] says whether one is,
    and while one is, nothing is on display. *)
Definition shape (w : World) : Prop :=
  match inflight w with
  | [] => isProcessing (ui w) = false
  | [_] => isProcessing (ui w) = true
           ∧ resultImage (ui w) = None ∧ errorDetails (ui w) = None
  | _ => False
  end.

Record Inv (w : World) : Prop := mkInv {
  inv_shape : shape w;
  inv_retained : ∀ u, u ∈ retained w → u < next_url w ∧ releases u (log w) = 0;
  inv_unused : ∀ u, (next_url w ≤ u)%nat → creations u (log w) = 0 ∧ releases u (log w) = 0;
  inv_created : ∀ u, u < next_url w → creations u (log w) = 1;
  inv_once : ∀ u, (releases u (log w) ≤ 1)%nat
}.

End UI.

(** ** What one [Dropzone] does with a stream of events (lines 61-81, 96) *)

Module Surface.

(** [interface FileState], lines 10-13. *)
Record FileState : Type := mkFileState {
  file : option File;
  error : option string
}.

(** The events the surface [div] listens to, lines 96-100. *)
Inductive SurfaceEvent : Type :=
| Drag (ty : Dropzone.DragType)          (* [onDragEnter], [onDragLeave], [onDragOver] *)
| DropFiles (files : option (list File)) (* [onDrop] *)
| Click.                                 (* [onClick] *)

(** [onClick={() => !fileState.file && inputRef.current?.click()}]:
    whether the picker is opened. *)
Definition onClick (fileState : FileState) : bool :=
  negb (bool_decide (is_Some (file fileState))).

(** The value of [isDragging] after one event. *)
Definition on_event (ev : SurfaceEvent) (isDragging : bool) : bool :=
  match ev with
  | Drag ty => Dropzone.handleDrag ty isDragging
  | DropFiles files => (Dropzone.handleDrop files isDragging).1
  | Click => isDragging
  end.

Definition dragging_after (evs : list SurfaceEvent) (isDragging : bool) : bool :=
  foldl (fun d ev => on_event ev d) isDragging evs.

(** The calls of [onFileSelect] the events make, in order. *)
Definition forwarded (evs : list SurfaceEvent) : list File :=
  evs ≫= (fun ev => match ev with
                    | DropFiles files => (Dropzone.handleDrop files false).2
                    | _ => []
                    end).

End Surface.

(** ** What the component draws (lines 223-387) and its effect (lines 165-169) *)

Module Render.
Import App.

(** The parts of the page that depend on the state. *)
Record View : Type := mkView {
  pdf_card : option File;         (* [fileState.file ? <FileCard ..>], line 118 *)
  shp_card : option File;
  button_disabled : bool;         (* line 290 *)
  spinner : bool;                 (* [isProcessing ? ..], line 299 *)
  hint : bool;                    (* [(!pdf || !shp) && ..], line 313 *)
  error_box : option string;      (* [errorDetails && ..], line 321 *)
  result_view : option ObjURL;    (* [resultImage && ..], line 337: [src] and [href] *)
  config_input : option string    (* [showConfig && ..], line 252: the [value] *)
}.

Definition download_name : string := "mapa_climatico.png".

(** [errorDetails && ( .. )]: the empty string is falsy, like [null]. *)
Definition truthy_text (t : option string) : option string :=
  match t with
  | Some m => if String.eqb m "" then None else Some m
  | None => None
  end.

Definition render (s : State) : View :=
  mkView (pdf s) (shp s) (submit_disabled s) (isProcessing s)
    (negb (readyToSubmit s))
    (truthy_text (errorDetails s))
    (resultImage s)
    (if showConfig s then Some (backendUrl s) else None).

(** The effect of lines 165-169, with dependency [[resultImage]]: after a
    render in which [resultImage] differs from the render before, the page
    scrolls to the results when [resultImage] is set (the results view,
    and so [resultRef.current], is there exactly then). *)
Definition autoScroll (prev cur : State) : bool :=
  match resultImage cur with
  | Some u => negb (bool_decide (resultImage prev = Some u))
  | None => false
  end.

End Render.

(** ** Reading a run *)

Module Trace.
Import App UI.

(** The value typed last into the backend URL input, [cur] if none was. *)
Definition last_edit (cur : string) (evs : list Event) : string :=
  foldl (fun c ev => match ev with EditBackendUrl v => v | _ => c end) cur evs.

(** Whether the settings button was pressed an odd number of times. *)
Definition toggled (cur : bool) (evs : list Event) : bool :=
  foldl (fun c ev => match ev with ToggleConfig => negb c | _ => c end) cur evs.

Definition is_submit (ev : Event) : bool :=
  match ev with
  | ClickSubmit => true
  | _ => false
  end.

Definition submit_clicks (evs : list Event) : nat := length (filter is_submit evs).

(** No result and error message together, and no empty error message. *)
Definition tidy (s : State) : Prop :=
  (resultImage s = None ∨ errorDetails s = None)
  ∧ ∀ t, errorDetails s = Some t → t ≠ "".

(** An event that is not the failure of a request. *)
Definition succeeds (ev : Event) : bool :=
  match ev with
  | Settle _ o =>
      match try_body o with
      | inr _ => true
      | inl _ => false
      end
  | _ => true
  end.

(** Every URL the component can name is one the browser holds. *)
Definition retained_live (w : World) : Prop :=
  ∀ u, u ∈ retained w → u ∈ live_urls (log w).

End Trace.

(** ** The page with its two surfaces *)

Module Zones.
Import App UI.

(** The component together with the [isDragging] cell (line 61) of each of
    its two [Dropzone]s. *)
Record Page : Type := mkPage {
  world : World;
  pdf_dragging : bool;
  shp_dragging : bool
}.

Definition dragging (sl : Slot) (pg : Page) : bool :=
  match sl with
  | PdfSlot => pdf_dragging pg
  | ShpSlot => shp_dragging pg
  end.

Definition set_dragging (sl : Slot) (d : bool) (pg : Page) : Page :=
  match sl with
  | PdfSlot => mkPage (world pg) d (shp_dragging pg)
  | ShpSlot => mkPage (world pg) (pdf_dragging pg) d
  end.

Definition with_world (w : World) (pg : Page) : Page :=
  mkPage w (pdf_dragging pg) (shp_dragging pg).

(** What can happen on one surface. *)
Inductive ZoneEvent : Type :=
| ZDrag (ty : Dropzone.DragType)      (* [handleDrag] *)
| ZDrop (files : option (list File))  (* [handleDrop] *)
| ZPick (files : option (list File))  (* the picker's [onChange] *)
| ZRemove                             (* the [FileCard] button *)
| ZClick.                             (* [onClick]: at most opens the picker *)

(** One event on the surface of slot [sl]: [handleDrag] and [handleDrop]
    write the surface's flag, [handleDrop], [onChange] and the remove
    button call [onFileSelect]. *)
Definition zone_step (env : Env) (sl : Slot) (ev : ZoneEvent) (pg : Page) : Page :=
  match ev with
  | ZDrag ty => set_dragging sl (Dropzone.handleDrag ty (dragging sl pg)) pg
  | ZDrop files =>
      set_dragging sl (Dropzone.handleDrop files (dragging sl pg)).1
        (with_world (step env (OnSlot sl (Drop files)) (world pg)) pg)
  | ZPick files => with_world (step env (OnSlot sl (Pick files)) (world pg)) pg
  | ZRemove => with_world (step env (OnSlot sl RemoveFile) (world pg)) pg
  | ZClick => pg
  end.

End Zones.

(** ** Concrete runs *)

Module Scenario.
Import App UI.

Definition env : Env := mkEnv None (Some "http://x").

Definition document : File := mkFile "document.pdf" 1200000.
Definition geometry : File := mkFile "geometry.zip" 3400000.
Definition extra : File := mkFile "extra.txt" 12.

(** Both slots filled, the first by a drop of two files. *)
Definition select_both : list Event :=
  [OnSlot PdfSlot (Drop (Some [document; extra]));
   OnSlot ShpSlot (Pick (Some [geometry]))].

Definition image : FetchOutcome := Resolved (mkResponse true "OK" None (inr "PNG")).

Definition invalid_geometry : FetchOutcome :=
  Resolved (mkResponse false "Internal Server Error"
              (Some (Json.JObj [("detail", Json.JStr "invalid geometry")]))
              (inr "")).

Definition unparseable : FetchOutcome :=
  Resolved (mkResponse false "Internal Server Error" None (inr "<html>")).

Definition unreachable : FetchOutcome := Rejected "Failed to fetch".

(** Both files selected and one request in flight. *)
Definition submitted : World := run env (select_both ++ [ClickSubmit]) (init env).

(** The state with both files selected, and the call of [handleProcess]
    that [submitted] has in flight. *)
Definition ready : State := ui (run env select_both (init env)).

Definition pending : Pending := mkPending "http://x/api/procesar/" None.

(** A run that succeeds, then a second run that fails. *)
Definition failed_rerun : list Event :=
  select_both ++ [ClickSubmit; Settle 0 image; ClickSubmit; Settle 0 invalid_geometry].

End Scenario.

(** * Properties *)

(** ** Strings *)

Section StringFacts.

Lemma append_cons (ch : ascii) (a b : string) :
  String ch a +:+ b = String ch (a +:+ b).
Proof. reflexivity. Qed.

Lemma append_assoc (a b c : string) : (a +:+ b) +:+ c = a +:+ (b +:+ c).
Proof.
  induction a as [|ch a IH]; [done|].
  rewrite !append_cons. by f_equal.
Qed.

Lemma append_empty_r (a : string) : a +:+ "" = a.
Proof.
  induction a as [|ch a IH]; [done|].
  rewrite append_cons. by f_equal.
Qed.

Lemma append_slash_nonempty (b : string) : ∃ c t, b +:+ "/" = String c t.
Proof.
  destruct b as [|c t]; [by exists "/"%char, "" |].
  rewrite append_cons. eauto.
Qed.

Lemma contains_prefix (a b : string) : Url.contains a (a +:+ b).
Proof. by exists "", b. Qed.

Lemma contains_middle (pre a post : string) : Url.contains a (pre +:+ a +:+ post).
Proof. by exists pre, post. Qed.

Lemma contains_refl (a : string) : Url.contains a a.
Proof. exists "", "". simpl. by rewrite append_empty_r. Qed.

End StringFacts.

(** ** The endpoint *)

Section Endpoint.

Import Url.

Lemma replace_trailing_slash_snoc (b : string) :
  replace_trailing_slash (b +:+ "/") = b.
Proof.
  induction b as [|c t IH]; [done|].
  change (String c t +:+ "/") with (String c (t +:+ "/")).
  destruct (append_slash_nonempty t) as (c' & t' & E).
  simpl. rewrite E, <- E. by rewrite IH.
Qed.

Lemma replace_trailing_slash_id (b : string) :
  ends_with_slash b = false → replace_trailing_slash b = b.
Proof.
  induction b as [|c t IH]; [done|].
  destruct t as [|c' t'].
  - simpl. by intros ->.
  - intros H. change (replace_trailing_slash (String c (String c' t')))
      with (String c (replace_trailing_slash (String c' t'))).
    by rewrite IH.
Qed.

Lemma replace_trailing_slash_cases (s : string) :
  (ends_with_slash s = false ∧ replace_trailing_slash s = s)
  ∨ (ends_with_slash s = true ∧ s = replace_trailing_slash s +:+ "/").
Proof.
  induction s as [|c t IH]; [by left|].
  destruct t as [|c' t'].
  - simpl. destruct (Ascii.eqb_spec c "/") as [->|]; [by right | by left].
  - change (replace_trailing_slash (String c (String c' t')))
      with (String c (replace_trailing_slash (String c' t'))).
    change (ends_with_slash (String c (String c' t')))
      with (ends_with_slash (String c' t')).
    destruct IH as [[H1 H2]|[H1 H2]]; [left | right]; split; try done.
    + by rewrite H2.
    + rewrite append_cons. f_equal. exact H2.
Qed.

Lemma baseUrl_nonempty (b : string) (o : option string) :
  b ≠ "" → baseUrl b o = b.
Proof.
  intros H. unfold baseUrl. by destruct (String.eqb_spec b "").
Qed.

Lemma ends_with_slash_snoc (b : string) : ends_with_slash (b +:+ "/") = true.
Proof.
  induction b as [|c t IH]; [done|].
  change (String c t +:+ "/") with (String c (t +:+ "/")).
  destruct (append_slash_nonempty t) as (c' & t' & E).
  simpl. rewrite E, <- E. exact IH.
Qed.

End Endpoint.

(** C7: with a configured base URL [b] that does not end in [/], the base
    [b/] and the base [b] both give the endpoint [b/api/procesar/]: the one
    trailing separator is dropped before the fixed path is appended, and
    the endpoint is not the one with the separator doubled. *)
Theorem endpoint_strips_trailing_separator (b : string) (o : option string) :
  b ≠ "" → Url.ends_with_slash b = false →
  Url.endpoint (b +:+ "/") o = b +:+ "/api/procesar/"
  ∧ Url.endpoint b o = b +:+ "/api/procesar/"
  ∧ Url.endpoint (b +:+ "/") o ≠ b +:+ "//api/procesar/".
Proof.
  intros Hne Hend.
  assert (E : Url.endpoint (b +:+ "/") o = b +:+ "/api/procesar/").
  { unfold Url.endpoint. rewrite baseUrl_nonempty.
    - by rewrite replace_trailing_slash_snoc.
    - destruct (append_slash_nonempty b) as (c & t & ->). done. }
  split; [exact E|]. split.
  - unfold Url.endpoint. rewrite baseUrl_nonempty by done.
    by rewrite replace_trailing_slash_id.
  - rewrite E. intros H. apply String.app_inj in H. discriminate H.
Qed.

Lemma endpoint_strips_trailing_separator_witness :
  Url.endpoint "http://x/" None = "http://x/api/procesar/"
  ∧ Url.endpoint "http://x" None = "http://x/api/procesar/"
  ∧ Url.endpoint "http://x/" None ≠ "http://x//api/procesar/".
Proof.
  apply (endpoint_strips_trailing_separator "http://x" None); [discriminate | reflexivity].
Defined.

(** C10: the replacement drops at most one trailing [/]; a base URL that
    ends in two slashes (whatever comes before them) keeps one of them, and
    the endpoint then holds the doubled separator [//api/procesar/]. *)
Theorem endpoint_keeps_second_slash (b : string) (o : option string) :
  Url.endpoint (b +:+ "//") o = b +:+ "//api/procesar/"
  ∧ Url.contains "//api/procesar/" (Url.endpoint (b +:+ "//") o)
  ∧ Url.replace_trailing_slash (b +:+ "//") = b +:+ "/"
  ∧ ∀ s, Url.replace_trailing_slash s = s
         ∨ s = Url.replace_trailing_slash s +:+ "/".
Proof.
  assert (E : Url.replace_trailing_slash (b +:+ "//") = b +:+ "/").
  { change "//" with ("/" +:+ "/"). rewrite <- append_assoc.
    apply replace_trailing_slash_snoc. }
  assert (F : Url.endpoint (b +:+ "//") o = b +:+ "//api/procesar/").
  { unfold Url.endpoint. rewrite baseUrl_nonempty.
    - rewrite E, append_assoc. done.
    - change "//" with ("/" +:+ "/"). rewrite <- append_assoc.
      destruct (append_slash_nonempty (b +:+ "/")) as (c & t & ->). done. }
  repeat split; try done.
  - rewrite F. exists b, "". by rewrite append_empty_r.
  - intros s. destruct (replace_trailing_slash_cases s) as [[_ H]|[_ H]]; eauto.
Qed.

(** ** The drop handler *)

(** C8: a drop whose payload holds at least one file calls the selection
    callback once, with the first file, whatever follows it, and clears the
    dragging flag; a drop with an empty (or missing) file list calls nothing
    and clears the flag as well.  On the page the slot then holds the first
    file. *)
Theorem drop_forwards_first_file (f : File) (rest : list File) (dragging : bool) :
  Dropzone.handleDrop (Some (f :: rest)) dragging = (false, [f])
  ∧ Dropzone.handleDrop (Some []) dragging = (false, [])
  ∧ Dropzone.handleDrop None dragging = (false, [])
  ∧ ∀ env w,
      App.pdf (UI.ui (UI.step env (UI.OnSlot UI.PdfSlot (UI.Drop (Some (f :: rest)))) w)) = Some f
      ∧ App.shp (UI.ui (UI.step env (UI.OnSlot UI.ShpSlot (UI.Drop (Some (f :: rest)))) w)) = Some f
      ∧ UI.step env (UI.OnSlot UI.PdfSlot (UI.Drop (Some []))) w = w
      ∧ UI.step env (UI.OnSlot UI.ShpSlot (UI.Drop (Some []))) w = w.
Proof.
  repeat split; try done; by destruct w.
Qed.

(** ** Reset *)

(** C6: after [handleReset], from any state, both slots are empty, there is
    no error message and no result on display, and the calls made are the
    one release of the object URL that was on display, if there was one,
    and nothing otherwise. *)
Theorem handleReset_clears (s : App.State) :
  let '(s', effects) := App.handleReset s in
  App.pdf s' = None ∧ App.shp s' = None
  ∧ App.errorDetails s' = None ∧ App.resultImage s' = None
  ∧ effects = match App.resultImage s with
              | Some u => [RevokeObjectURL u]
              | None => []
              end
  ∧ (∀ u, App.resultImage s = Some u → UI.releases u effects = 1)
  ∧ App.isProcessing s' = App.isProcessing s
  ∧ App.backendUrl s' = App.backendUrl s.
Proof.
  unfold App.handleReset. simpl. repeat split.
  intros u ->. unfold UI.releases. simpl. by case_decide.
Qed.

(** ** The two slots *)

Section Slots.

Import App UI.

Lemma foldl_onFileSelect (sl : Slot) (fs : list (option File)) (s : State) :
  let s' := foldl (fun s f => onFileSelect sl f s) s fs in
  pdf s' = (if decide (sl = PdfSlot) then foldl (fun _ f => f) (pdf s) fs else pdf s)
  ∧ shp s' = (if decide (sl = ShpSlot) then foldl (fun _ f => f) (shp s) fs else shp s)
  ∧ isProcessing s' = isProcessing s ∧ resultImage s' = resultImage s
  ∧ errorDetails s' = errorDetails s ∧ showConfig s' = showConfig s
  ∧ backendUrl s' = backendUrl s.
Proof.
  revert s. induction fs as [|f fs IH]; intros s.
  - simpl. by repeat case_decide.
  - simpl. destruct (IH (onFileSelect sl f s)) as (H1 & H2 & H3 & H4 & H5 & H6 & H7).
    rewrite H1, H2, H3, H4, H5, H6, H7. by destruct sl.
Qed.

Lemma on_slot_cons (sl sl' : Slot) (a : SlotAction) (acts : list (Slot * SlotAction)) :
  on_slot sl ((sl', a) :: acts)
  = if decide (sl' = sl) then a :: on_slot sl acts else on_slot sl acts.
Proof. unfold on_slot. rewrite filter_cons. simpl. by case_decide. Qed.

Lemma slot_after_cons (cur : option File) (a : SlotAction) (acts : list SlotAction) :
  slot_after cur (a :: acts) = slot_after (foldl (fun _ f => f) cur (selections a)) acts.
Proof. unfold slot_after. by rewrite bind_cons, foldl_app. Qed.

(** Actions on the slots change the two slots and nothing else; each slot
    sees the actions on it alone. *)
Lemma run_slot_events (env : Env) (acts : list (Slot * SlotAction)) (w : World) :
  let w' := run env (slot_events acts) w in
  pdf (ui w') = slot_after (pdf (ui w)) (on_slot PdfSlot acts)
  ∧ shp (ui w') = slot_after (shp (ui w)) (on_slot ShpSlot acts)
  ∧ isProcessing (ui w') = isProcessing (ui w)
  ∧ resultImage (ui w') = resultImage (ui w)
  ∧ errorDetails (ui w') = errorDetails (ui w)
  ∧ inflight w' = inflight w ∧ log w' = log w ∧ next_url w' = next_url w.
Proof.
  revert w. induction acts as [|[sl a] acts IH]; intros w; [done|].
  change (run env (slot_events ((sl, a) :: acts)) w)
    with (run env (slot_events acts) (step env (OnSlot sl a) w)).
  cbv zeta in IH |- *.
  destruct (IH (step env (OnSlot sl a) w)) as (H1 & H2 & H3 & H4 & H5 & H6 & H7 & H8).
  rewrite H1, H2, H3, H4, H5, H6, H7, H8.
  change (step env (OnSlot sl a) w)
    with (with_ui (foldl (fun s f => onFileSelect sl f s) (ui w) (selections a)) w).
  change (ui (with_ui ?s w)) with s.
  destruct (foldl_onFileSelect sl (selections a) (ui w)) as (G1 & G2 & G3 & G4 & G5 & _).
  rewrite G1, G2, G3, G4, G5, !on_slot_cons.
  destruct sl; repeat case_decide; try done; by rewrite slot_after_cons.
Qed.

Lemma readyToSubmit_spec (s : State) :
  readyToSubmit s = true ↔ is_Some (pdf s) ∧ is_Some (shp s).
Proof.
  unfold readyToSubmit. destruct (pdf s), (shp s); simpl; split;
    try done; intros [[? ?] [? ?]]; done.
Qed.

Lemma handleProcess_not_ready (env : Env) (s : State) :
  readyToSubmit s = false → handleProcess env s = (s, [], None).
Proof. unfold readyToSubmit, handleProcess. by destruct (pdf s), (shp s). Qed.

End Slots.

(** C4: after any sequence of selections and removals on the two slots,
    each slot holds what the actions on it alone left there, the button is
    ready (and enabled) exactly when both slots hold a file, so the outcome
    does not depend on how the actions of the two slots were interleaved, and
    with a slot empty neither [handleProcess] nor a click on the button does
    anything. *)
Theorem ready_iff_both_slots (env : App.Env) (acts : list (UI.Slot * UI.SlotAction)) :
  let w := UI.run env (UI.slot_events acts) (UI.init env) in
  let s := UI.ui w in
  App.pdf s = UI.slot_after None (UI.on_slot UI.PdfSlot acts)
  ∧ App.shp s = UI.slot_after None (UI.on_slot UI.ShpSlot acts)
  ∧ (App.readyToSubmit s = true ↔ is_Some (App.pdf s) ∧ is_Some (App.shp s))
  ∧ App.submit_disabled s = negb (App.readyToSubmit s)
  ∧ (∀ acts',
       UI.on_slot UI.PdfSlot acts' = UI.on_slot UI.PdfSlot acts →
       UI.on_slot UI.ShpSlot acts' = UI.on_slot UI.ShpSlot acts →
       App.readyToSubmit (UI.ui (UI.run env (UI.slot_events acts') (UI.init env)))
       = App.readyToSubmit s)
  ∧ (App.readyToSubmit s = false →
     App.handleProcess env s = (s, [], None) ∧ UI.step env UI.ClickSubmit w = w).
Proof.
  cbv zeta.
  destruct (run_slot_events env acts (UI.init env)) as (H1 & H2 & H3 & _).
  set (w := UI.run env (UI.slot_events acts) (UI.init env)) in *.
  assert (D : App.submit_disabled (UI.ui w) = negb (App.readyToSubmit (UI.ui w))).
  { unfold App.submit_disabled, App.readyToSubmit. rewrite H3. simpl.
    by rewrite orb_false_r, negb_involutive. }
  refine (conj H1 (conj H2 (conj (readyToSubmit_spec _) (conj D (conj _ _))))).
  - intros acts' E1 E2.
    destruct (run_slot_events env acts' (UI.init env)) as (G1 & G2 & _).
    unfold App.readyToSubmit. rewrite G1, G2, H1, H2, E1, E2. done.
  - intros H. split; [by apply handleProcess_not_ready|].
    simpl. rewrite D. by rewrite H.
Qed.

Lemma ready_iff_both_slots_witness :
  let only_pdf := [(UI.PdfSlot, UI.Pick (Some [Scenario.document]))] in
  let s := UI.ui (UI.run Scenario.env (UI.slot_events only_pdf) (UI.init Scenario.env)) in
  App.readyToSubmit s = false
  ∧ App.handleProcess Scenario.env s = (s, [], None).
Proof.
  cbv zeta. split; [reflexivity|].
  apply (ready_iff_both_slots Scenario.env
           [(UI.PdfSlot, UI.Pick (Some [Scenario.document]))]).
  reflexivity.
Defined.

(** ** The error message *)

Section ErrorMessage.

Import App.

Lemma handleProcess_started (env : Env) (s s1 : State) (effects : list Effect)
    (p : Pending) :
  handleProcess env s = (s1, effects, Some p) →
  ∃ f g,
    pdf s = Some f ∧ shp s = Some g
    ∧ effects = [Fetch (p_endpoint p) f g]
    ∧ p_endpoint p = Url.endpoint (backendUrl s) (origin env)
    ∧ p_resultImage p = resultImage s
    ∧ s1 = setErrorDetails None (setResultImage None (setIsProcessing true s)).
Proof.
  unfold handleProcess. destruct (pdf s) as [f|], (shp s) as [g|]; try done.
  intros [= <- <- <-]. by exists f, g.
Qed.

Lemma error_text_contains (message endpoint : string) :
  Url.contains message (error_text message endpoint)
  ∧ Url.contains endpoint (error_text message endpoint).
Proof.
  unfold error_text. split.
  - apply contains_prefix.
  - exists (message +:+ " (URL: "), ")". by rewrite append_assoc.
Qed.

Lemma resume_failure (p : Pending) (o : FetchOutcome) (fresh : ObjURL) (s : State)
    (message : string) :
  try_body o = inl message →
  handleProcess_resume p o fresh s
  = (setIsProcessing false (setErrorDetails (Some (error_text message (p_endpoint p))) s),
     [], false).
Proof. unfold handleProcess_resume. by intros ->. Qed.

Lemma resume_success (p : Pending) (o : FetchOutcome) (fresh : ObjURL) (s : State)
    (b : string) :
  try_body o = inr b →
  handleProcess_resume p o fresh s
  = (setIsProcessing false (setResultImage (Some fresh) s),
     CreateObjectURL fresh :: revocation (p_resultImage p), true).
Proof. unfold handleProcess_resume. by intros ->. Qed.

Lemma thrown_message_detail (r : Response) (fields : list (string * Json.value))
    (d : string) :
  json r = Some (Json.JObj fields) →
  Json.get_field "detail" fields = Some (Json.JStr d) →
  thrown_message r = (if String.eqb d "" then "Error processing files" else d).
Proof.
  intros Hj Hd. unfold thrown_message. rewrite Hj. simpl. rewrite Hd. simpl.
  by destruct (String.eqb d "").
Qed.

Lemma thrown_message_unparsed (r : Response) :
  json r = None →
  thrown_message r
  = (if String.eqb (statusText r) "" then "Error processing files" else statusText r).
Proof.
  intros Hj. unfold thrown_message. rewrite Hj. simpl.
  by destruct (String.eqb (statusText r) "").
Qed.

Lemma contains_or_default (d : string) :
  Url.contains d (if String.eqb d "" then "Error processing files" else d).
Proof.
  destruct (String.eqb_spec d "") as [->|_].
  - by exists "", "Error processing files".
  - apply contains_refl.
Qed.

Lemma contains_trans (a b c : string) :
  Url.contains a b → Url.contains b c → Url.contains a c.
Proof.
  intros (p1 & q1 & ->) (p2 & q2 & ->).
  exists (p2 +:+ p1), (q1 +:+ q2). by rewrite !append_assoc.
Qed.

End ErrorMessage.

(** C5: for a submission that fetched [endpoint], whatever the state is
    when the request completes: when [fetch] rejects with a message, the
    recorded text contains that message and [endpoint]; when the response is
    not ok and its body parses to an object whose [detail] is a string, the
    text contains that string and [endpoint]; when the response is not ok and
    its body does not parse, the text contains the status text and
    [endpoint]. *)
Theorem error_message_content (env : App.Env) (s s1 : App.State) (endpoint : string)
    (f g : File) (p : App.Pending) :
  App.handleProcess env s = (s1, [Fetch endpoint f g], Some p) →
  ∀ (o : App.FetchOutcome) (fresh : ObjURL) (s2 : App.State),
    let s' := (App.handleProcess_resume p o fresh s2).1.1 in
    match o with
    | App.Rejected message =>
        ∃ text, App.errorDetails s' = Some text
                ∧ Url.contains message text ∧ Url.contains endpoint text
    | App.Resolved r =>
        App.ok r = false →
        (∀ fields d,
            App.json r = Some (Json.JObj fields) →
            Json.get_field "detail" fields = Some (Json.JStr d) →
            ∃ text, App.errorDetails s' = Some text
                    ∧ Url.contains d text ∧ Url.contains endpoint text)
        ∧ (App.json r = None →
           ∃ text, App.errorDetails s' = Some text
                   ∧ Url.contains (App.statusText r) text ∧ Url.contains endpoint text)
    end.
Proof.
  intros Hstart o fresh s2.
  destruct (handleProcess_started _ _ _ _ _ Hstart) as (f' & g' & _ & _ & He & _).
  injection He as E _ _. subst endpoint. clear Hstart. cbv zeta.
  assert (K : ∀ message inner,
             App.try_body o = inl message → Url.contains inner message →
             ∃ text, App.errorDetails (App.handleProcess_resume p o fresh s2).1.1 = Some text
                     ∧ Url.contains inner text ∧ Url.contains (App.p_endpoint p) text).
  { intros message inner Ht Hin. rewrite (resume_failure _ _ _ _ _ Ht). simpl.
    eexists; split; [done|].
    destruct (error_text_contains message (App.p_endpoint p)) as [C1 C2].
    split; [by eapply contains_trans | done]. }
  destruct o as [message | r].
  - apply (K message message); [done | apply contains_refl].
  - intros Hok. split.
    + intros fields d Hj Hd. eapply K.
      * simpl. rewrite Hok. reflexivity.
      * rewrite (thrown_message_detail _ _ _ Hj Hd). apply contains_or_default.
    + intros Hj. eapply K.
      * simpl. rewrite Hok. reflexivity.
      * rewrite (thrown_message_unparsed _ Hj). apply contains_or_default.
Qed.

Lemma error_message_content_witness :
  ∃ text,
    App.errorDetails
      (App.handleProcess_resume Scenario.pending Scenario.invalid_geometry 0
         (UI.ui Scenario.submitted)).1.1 = Some text
    ∧ Url.contains "invalid geometry" text
    ∧ Url.contains "http://x/api/procesar/" text.
Proof.
  refine (proj1 (error_message_content Scenario.env Scenario.ready
                   (UI.ui Scenario.submitted) _ Scenario.document Scenario.geometry
                   Scenario.pending eq_refl Scenario.invalid_geometry 0
                   (UI.ui Scenario.submitted) eq_refl)
            _ "invalid geometry" eq_refl eq_refl).
Defined.

(** ** Counting in the log *)

Section Counting.

Import App UI.

Variables (u v : ObjURL) (l l' : list Effect).

Lemma releases_app : releases u (l ++ l') = releases u l + releases u l'.
Proof. apply count_occ_app. Qed.

Lemma creations_app : creations u (l ++ l') = creations u l + creations u l'.
Proof. apply count_occ_app. Qed.

Lemma releases_nil : releases u [] = 0.
Proof. reflexivity. Qed.

Lemma creations_nil : creations u [] = 0.
Proof. reflexivity. Qed.

Lemma releases_revoke :
  releases u (RevokeObjectURL v :: l) = (if decide (v = u) then 1 else 0) + releases u l.
Proof.
  unfold releases. cbn [count_occ].
  destruct (Effect_eq_dec (RevokeObjectURL v) (RevokeObjectURL u)) as [E|E];
    case_decide; simpl; congruence.
Qed.

Lemma creations_create :
  creations u (CreateObjectURL v :: l) = (if decide (v = u) then 1 else 0) + creations u l.
Proof.
  unfold creations. cbn [count_occ].
  destruct (Effect_eq_dec (CreateObjectURL v) (CreateObjectURL u)) as [E|E];
    case_decide; simpl; congruence.
Qed.

Lemma creations_revoke : creations u (RevokeObjectURL v :: l) = creations u l.
Proof. reflexivity. Qed.

Lemma releases_create : releases u (CreateObjectURL v :: l) = releases u l.
Proof. reflexivity. Qed.

Lemma releases_fetch (endpoint : string) (f g : File) :
  releases u (Fetch endpoint f g :: l) = releases u l.
Proof. reflexivity. Qed.

Lemma creations_fetch (endpoint : string) (f g : File) :
  creations u (Fetch endpoint f g :: l) = creations u l.
Proof. reflexivity. Qed.

End Counting.

Lemma releases_revocation (u : ObjURL) (o : option ObjURL) :
  UI.releases u (App.revocation o) = if decide (o = Some u) then 1 else 0.
Proof.
  destruct o as [old|]; [|by case_decide].
  change (App.revocation (Some old)) with [RevokeObjectURL old].
  rewrite releases_revoke, releases_nil. repeat case_decide; simplify_eq; done.
Qed.

Lemma creations_revocation (u : ObjURL) (o : option ObjURL) :
  UI.creations u (App.revocation o) = 0.
Proof. by destruct o. Qed.

Create Rewrite HintDb log_count.

#[local] Hint Rewrite releases_app creations_app releases_nil creations_nil
  releases_revoke creations_create creations_revoke releases_create
  releases_fetch creations_fetch releases_revocation creations_revocation
  : log_count.

(** Brings the counts over a log that grew by some calls back to the
    counts over the log before, and decides the comparisons of URLs. *)
#[local] Ltac count_log :=
  autorewrite with log_count; repeat case_decide; simplify_eq; try lia.

(** ** What every state of the page satisfies *)

Section Invariant.

Import App UI.

Variable env : Env.

Lemma Inv_init : Inv (init env).
Proof.
  split; simpl; try done.
  - intros u Hu. by apply elem_of_nil in Hu.
  - intros u Hu. lia.
  - intros u. rewrite releases_nil. lia.
Qed.

(** A change of the state that leaves the three cells of [shape] and the
    rest of the page alone keeps the invariant. *)
Lemma Inv_with_ui (s : State) (w : World) :
  isProcessing s = isProcessing (ui w) →
  resultImage s = resultImage (ui w) →
  errorDetails s = errorDetails (ui w) →
  Inv w → Inv (with_ui s w).
Proof.
  intros E1 E2 E3 [Hs Hr Hu Hc Ho]. split; try done.
  - unfold shape in *. simpl. rewrite E1, E2, E3. done.
  - unfold retained in *. simpl. rewrite E2. done.
Qed.

Lemma submit_enabled_inv (s : State) :
  submit_disabled s = false →
  ∃ f g, pdf s = Some f ∧ shp s = Some g ∧ isProcessing s = false.
Proof.
  unfold submit_disabled.
  destruct (pdf s) as [f|], (shp s) as [g|], (isProcessing s); try done.
  intros _. by exists f, g.
Qed.

Lemma shape_idle (w : World) :
  shape w → isProcessing (ui w) = false → inflight w = [].
Proof.
  unfold shape. destruct (inflight w) as [|p [|q r]]; try done.
  intros [H _] H'. congruence.
Qed.

Lemma shape_busy (w : World) :
  shape w → isProcessing (ui w) = true →
  ∃ p, inflight w = [p] ∧ resultImage (ui w) = None ∧ errorDetails (ui w) = None.
Proof.
  unfold shape. destruct (inflight w) as [|p [|q r]]; try done.
  - congruence.
  - intros (_ & H1 & H2) _. by exists p.
Qed.

Lemma shape_displayed (w : World) (u : ObjURL) :
  shape w → resultImage (ui w) = Some u → inflight w = [].
Proof.
  unfold shape. destruct (inflight w) as [|p [|q r]]; try done.
  intros (_ & H & _) H'. congruence.
Qed.

Lemma shape_lookup (w : World) (i : nat) (p : Pending) :
  shape w → inflight w !! i = Some p →
  i = 0 ∧ inflight w = [p] ∧ isProcessing (ui w) = true
  ∧ resultImage (ui w) = None ∧ errorDetails (ui w) = None.
Proof.
  unfold shape. destruct (inflight w) as [|q [|q' r]]; try done.
  intros (H1 & H2 & H3). destruct i as [|i]; simpl; [|done].
  intros [= ->]. done.
Qed.

(** What a click on the enabled button makes of the page. *)
Lemma start_enabled (w : World) :
  submit_disabled (ui w) = false → shape w →
  ∃ f g,
    pdf (ui w) = Some f ∧ shp (ui w) = Some g ∧
    start env w
    = mkWorld (setErrorDetails None (setResultImage None (setIsProcessing true (ui w))))
        [mkPending (Url.endpoint (backendUrl (ui w)) (origin env)) (resultImage (ui w))]
        (next_url w)
        (log w ++ [Fetch (Url.endpoint (backendUrl (ui w)) (origin env)) f g]).
Proof.
  intros Hd Hs. destruct (submit_enabled_inv _ Hd) as (f & g & Hf & Hg & Hp).
  exists f, g. split; [done|]. split; [done|].
  unfold start, handleProcess. rewrite Hf, Hg, (shape_idle _ Hs Hp). done.
Qed.

Lemma Inv_submit (w : World) : Inv w → Inv (step env ClickSubmit w).
Proof.
  intros HI. simpl. destruct (submit_disabled (ui w)) eqn:Hd; [done|].
  destruct HI as [Hs Hr Hu Hc Ho].
  destruct (start_enabled w Hd Hs) as (f & g & Hf & Hg & ->).
  destruct (submit_enabled_inv _ Hd) as (_ & _ & _ & _ & Hp).
  pose proof (shape_idle _ Hs Hp) as Hnil.
  split; simpl.
  - done.
  - intros u Hin. destruct (Hr u) as [? ?]; [|count_log].
    unfold retained in *. simpl in *. rewrite Hnil.
    destruct (resultImage (ui w)); simpl in *; [done | by apply elem_of_nil in Hin].
  - intros u Hle. destruct (Hu u Hle). count_log.
  - intros u Hlt. rewrite creations_app, (Hc u Hlt). count_log.
  - intros u. pose proof (Ho u). count_log.
Qed.

Lemma Inv_reset (w : World) : Inv w → Inv (step env ClickReset w).
Proof.
  intros HI. simpl. destruct (resultImage (ui w)) as [u0|] eqn:Hres; [|done].
  destruct HI as [Hs Hr Hu Hc Ho].
  pose proof (shape_displayed _ _ Hs Hres) as Hnil.
  assert (H0 : u0 < next_url w ∧ releases u0 (log w) = 0).
  { apply Hr. unfold retained. rewrite Hres. simpl. apply list_elem_of_here. }
  unfold reset, handleReset. rewrite Hres. split; simpl.
  - unfold shape in *. simpl. rewrite Hnil in *. done.
  - intros u Hin. unfold retained in Hin. simpl in Hin. rewrite Hnil in Hin.
    by apply elem_of_nil in Hin.
  - intros u Hle. destruct (Hu u Hle) as [? ?]. count_log.
  - intros u Hlt. rewrite creations_app, (Hc u Hlt). count_log.
  - intros u. pose proof (Ho u). count_log.
Qed.

Lemma Inv_settle (i : nat) (o : FetchOutcome) (w : World) :
  Inv w → Inv (step env (Settle i o) w).
Proof.
  intros HI. simpl. destruct (inflight w !! i) as [p|] eqn:Hl; [|done].
  destruct HI as [Hs Hr Hu Hc Ho].
  destruct (shape_lookup _ _ _ Hs Hl) as (-> & Hinf & Hp & Hres & Herr).
  assert (Hold : ∀ old, p_resultImage p = Some old →
                        old < next_url w ∧ releases old (log w) = 0).
  { intros old Hold. apply Hr. unfold retained. rewrite Hres, Hinf. simpl.
    rewrite Hold. apply list_elem_of_here. }
  unfold settle. destruct (try_body o) as [message|b] eqn:Ht.
  - rewrite (resume_failure _ _ _ _ _ Ht). split; simpl; rewrite ?app_nil_r; try done.
    + unfold shape. simpl. rewrite Hinf. done.
    + intros u Hin. unfold retained in Hin. simpl in Hin.
      rewrite Hres, Hinf in Hin. by apply elem_of_nil in Hin.
  - rewrite (resume_success _ _ _ _ _ Ht). split; simpl.
    + unfold shape. simpl. rewrite Hinf. done.
    + intros u Hin. unfold retained in Hin. simpl in Hin. rewrite Hinf in Hin.
      simpl in Hin. apply list_elem_of_singleton in Hin as ->.
      split; [lia|]. destruct (Hu (next_url w)) as [_ E]; [lia|].
      autorewrite with log_count. rewrite E.
      case_decide as Hd; [|done]. destruct (Hold _ Hd). lia.
    + intros u Hle. destruct (Hu u) as [E1 E2]; [lia|].
      autorewrite with log_count. rewrite E1, E2.
      repeat case_decide; try lia. destruct (Hold u); [done | lia].
    + intros u Hlt. autorewrite with log_count.
      case_decide as Hd.
      * subst u. destruct (Hu (next_url w)) as [-> _]; [lia|]. done.
      * rewrite Hc by lia. done.
    + intros u. autorewrite with log_count.
      case_decide as Hd; [|pose proof (Ho u); lia].
      destruct (Hold _ Hd) as [_ ->]. done.
Qed.

Lemma Inv_step (ev : Event) (w : World) : Inv w → Inv (step env ev w).
Proof.
  intros HI. destruct ev as [sl a| | |i o|v|].
  - simpl. destruct (foldl_onFileSelect sl (selections a) (ui w))
      as (_ & _ & G3 & G4 & G5 & _).
    by apply Inv_with_ui.
  - by apply Inv_submit.
  - by apply Inv_reset.
  - by apply Inv_settle.
  - by apply Inv_with_ui.
  - by apply Inv_with_ui.
Qed.

Lemma Inv_run (evs : list Event) (w : World) : Inv w → Inv (run env evs w).
Proof.
  revert w. induction evs as [|ev evs IH]; intros w HI; [done|].
  apply (IH (step env ev w)). by apply Inv_step.
Qed.

Lemma Inv_reachable (evs : list Event) : Inv (run env evs (init env)).
Proof. apply Inv_run, Inv_init. Qed.

End Invariant.

(** ** The in-flight guard *)

Section Guard.

Import App UI.

Lemma click_submit_busy (env : Env) (w : World) :
  isProcessing (ui w) = true → step env ClickSubmit w = w.
Proof.
  intros H. simpl. unfold submit_disabled. rewrite H.
  by rewrite orb_true_r.
Qed.

(** While a request is in flight, only its completion changes the
    requests, the log or what is on display. *)
Lemma run_quiet (env : Env) (mid : list Event) (w : World) :
  Forall (fun ev => is_settle ev = false) mid →
  isProcessing (ui w) = true → resultImage (ui w) = None →
  let w' := run env mid w in
  inflight w' = inflight w ∧ log w' = log w ∧ next_url w' = next_url w
  ∧ isProcessing (ui w') = true ∧ resultImage (ui w') = None
  ∧ errorDetails (ui w') = errorDetails (ui w).
Proof.
  intros Hmid. revert w. induction Hmid as [|ev mid Hev _ IH]; intros w Hp Hres; [done|].
  cbv zeta in *.
  change (run env (ev :: mid) w) with (run env mid (step env ev w)).
  assert (K : inflight (step env ev w) = inflight w ∧ log (step env ev w) = log w
              ∧ next_url (step env ev w) = next_url w
              ∧ isProcessing (ui (step env ev w)) = true
              ∧ resultImage (ui (step env ev w)) = None
              ∧ errorDetails (ui (step env ev w)) = errorDetails (ui w)).
  { destruct ev as [sl a| | |i o|v|]; try done.
    - simpl. destruct (foldl_onFileSelect sl (selections a) (ui w))
        as (_ & _ & G3 & G4 & G5 & _).
      by rewrite G3, G4, G5.
    - by rewrite click_submit_busy.
    - simpl. by rewrite Hres. }
  destruct K as (K1 & K2 & K3 & K4 & K5 & K6).
  destruct (IH _ K4 K5) as (H1 & H2 & H3 & H4 & H5 & H6).
  by rewrite H1, H2, H3, H4, H5, H6.
Qed.

End Guard.

(** C1, as the code has it: in every state the page can reach, at most one
    request is in flight, and while one is ([isProcessing] is true) a click
    on the submit button changes nothing: no call is made and the state
    stays as it was.  The guard is the button's [disabled] attribute;
    [handleProcess] itself tests the two slots only. *)
Theorem submit_click_guarded (env : App.Env) (evs : list UI.Event) :
  let w := UI.run env evs (UI.init env) in
  (length (UI.inflight w) ≤ 1)%nat
  ∧ (App.isProcessing (UI.ui w) = false → UI.inflight w = [])
  ∧ (App.isProcessing (UI.ui w) = true →
     length (UI.inflight w) = 1 ∧ UI.step env UI.ClickSubmit w = w).
Proof.
  cbv zeta. destruct (Inv_reachable env evs) as [Hs _ _ _ _].
  set (w := UI.run env evs (UI.init env)) in *.
  split; [|split].
  - unfold UI.shape in Hs. destruct (UI.inflight w) as [|p [|q r]]; simpl; try done; lia.
  - by apply shape_idle.
  - intros Hp. destruct (shape_busy _ Hs Hp) as (p & -> & _).
    split; [done | by apply click_submit_busy].
Qed.

Lemma submit_click_guarded_witness :
  App.isProcessing (UI.ui Scenario.submitted) = true
  ∧ length (UI.inflight Scenario.submitted) = 1
  ∧ UI.step Scenario.env UI.ClickSubmit Scenario.submitted = Scenario.submitted.
Proof.
  split; [reflexivity|].
  apply (submit_click_guarded Scenario.env (Scenario.select_both ++ [UI.ClickSubmit])).
  reflexivity.
Defined.

(** C1, as the claim words it, fails: called in a state whose
    [isProcessing] is true and whose two slots are filled, [handleProcess]
    changes the state and issues a second request. *)
Lemma handleProcess_ignores_isProcessing :
  let w := Scenario.submitted in
  App.isProcessing (UI.ui w) = true
  ∧ UI.fetches (UI.log w) = 1
  ∧ (App.handleProcess Scenario.env (UI.ui w)).1.2
    = [Fetch "http://x/api/procesar/" Scenario.document Scenario.geometry]
  ∧ UI.fetches (UI.log (UI.start Scenario.env w)) = 2
  ∧ length (UI.inflight (UI.start Scenario.env w)) = 2
  ∧ ¬ (∀ env s, App.isProcessing s = true → App.handleProcess env s = (s, [], None)).
Proof.
  repeat split.
  intros H. specialize (H Scenario.env (UI.ui Scenario.submitted) eq_refl).
  discriminate H.
Qed.

(** ** Submission clears the display *)

(** C9: in every state the page can reach, a click on the enabled submit
    button leaves no result and no error message in the state that issues
    the request; as long as the request is in flight neither is present;
    when it fails the result stays absent and an error message is set; when
    it succeeds the result is an object URL that had not been created
    before. *)
Theorem in_flight_shows_nothing (env : App.Env) (evs : list UI.Event) :
  let w := UI.run env evs (UI.init env) in
  (App.submit_disabled (UI.ui w) = false →
   let w1 := UI.step env UI.ClickSubmit w in
   App.isProcessing (UI.ui w1) = true
   ∧ App.resultImage (UI.ui w1) = None ∧ App.errorDetails (UI.ui w1) = None
   ∧ ∃ endpoint f g, UI.log w1 = (UI.log w ++ [Fetch endpoint f g])%list)
  ∧ (App.isProcessing (UI.ui w) = true →
     App.resultImage (UI.ui w) = None ∧ App.errorDetails (UI.ui w) = None
     ∧ ∀ o,
         let w' := UI.step env (UI.Settle 0 o) w in
         match App.try_body o with
         | inl _ =>
             App.resultImage (UI.ui w') = None ∧ is_Some (App.errorDetails (UI.ui w'))
         | inr _ =>
             App.resultImage (UI.ui w') = Some (UI.next_url w)
             ∧ UI.creations (UI.next_url w) (UI.log w) = 0
         end).
Proof.
  cbv zeta. destruct (Inv_reachable env evs) as [Hs _ Hu _ _].
  set (w := UI.run env evs (UI.init env)) in *.
  split.
  - intros Hd. simpl. rewrite Hd.
    destruct (start_enabled env w Hd Hs) as (f & g & _ & _ & ->). simpl.
    repeat split. by eexists _, f, g.
  - intros Hp. destruct (shape_busy _ Hs Hp) as (p & Hinf & Hres & Herr).
    split; [done|]. split; [done|]. intros o. simpl. rewrite Hinf. simpl.
    unfold UI.settle. destruct (App.try_body o) as [message|b] eqn:Ht.
    + rewrite (resume_failure _ _ _ _ _ Ht). simpl. split; [done | by eexists].
    + rewrite (resume_success _ _ _ _ _ Ht). simpl. split; [done|].
      apply Hu. lia.
Qed.

Lemma in_flight_shows_nothing_witness :
  App.resultImage (UI.ui Scenario.submitted) = None
  ∧ App.errorDetails (UI.ui Scenario.submitted) = None
  ∧ App.resultImage
      (UI.ui (UI.step Scenario.env (UI.Settle 0 Scenario.unreachable) Scenario.submitted))
    = None.
Proof.
  destruct (in_flight_shows_nothing Scenario.env (Scenario.select_both ++ [UI.ClickSubmit]))
    as [_ H].
  destruct (H eq_refl) as (H1 & H2 & H3).
  split; [exact H1|]. split; [exact H2|].
  exact (proj1 (H3 Scenario.unreachable)).
Defined.

(** ** The hand-over of the object URL *)

Section HandOver.

Import App UI.

Lemma run_app (env : Env) (evs evs' : list Event) (w : World) :
  run env (evs ++ evs') w = run env evs' (run env evs w).
Proof. unfold run. apply foldl_app. Qed.

Lemma live_urls_snoc_create (l : list Effect) (u : ObjURL) :
  live_urls (l ++ [CreateObjectURL u]) = {[u]} ∪ live_urls l.
Proof. unfold live_urls. by rewrite foldl_app. Qed.

Lemma live_urls_snoc_revoke (l : list Effect) (u : ObjURL) :
  live_urls (l ++ [RevokeObjectURL u]) = live_urls l ∖ {[u]}.
Proof. unfold live_urls. by rewrite foldl_app. Qed.

Lemma live_urls_snoc_fetch (l : list Effect) (endpoint : string) (f g : File) :
  live_urls (l ++ [Fetch endpoint f g]) = live_urls l.
Proof. unfold live_urls. by rewrite foldl_app. Qed.

End HandOver.

(** X16: take any state the page can reach in which the submit button is
    enabled, click it, let anything but the completion happen, and let the
    request succeed.  The calls made since the click are the request, then
    one [createObjectURL], then the release of the URL that was on display
    at the click, if there was one: the release comes after the creation.
    The new URL had not been created before; afterwards it is the one on
    display and the only one the component retains.  Of the URLs the
    browser holds, the new one is added and the one that was on display
    removed; every other URL it held, it still holds. *)
Theorem success_hands_over (env : App.Env) (evs mid : list UI.Event)
    (o : App.FetchOutcome) (b : string) :
  let w0 := UI.run env evs (UI.init env) in
  App.submit_disabled (UI.ui w0) = false →
  Forall (fun ev => UI.is_settle ev = false) mid →
  App.try_body o = inr b →
  let w := UI.run env mid (UI.step env UI.ClickSubmit w0) in
  let w' := UI.step env (UI.Settle 0 o) w in
  let new := UI.next_url w0 in
  let prior := App.resultImage (UI.ui w0) in
  (∃ endpoint f g,
      UI.log w' = (UI.log w0 ++ [Fetch endpoint f g; CreateObjectURL new]
                     ++ App.revocation prior)%list)
  ∧ prior ≠ Some new
  ∧ UI.creations new (UI.log w0) = 0 ∧ UI.creations new (UI.log w') = 1
  ∧ UI.releases new (UI.log w') = 0
  ∧ (∀ old, prior = Some old →
            UI.releases old (UI.log w0) = 0 ∧ UI.releases old (UI.log w') = 1)
  ∧ App.resultImage (UI.ui w') = Some new
  ∧ App.isProcessing (UI.ui w') = false ∧ UI.inflight w' = []
  ∧ UI.retained w0 = option_list prior ∧ UI.retained w = option_list prior
  ∧ UI.retained w' = [new]
  ∧ UI.live_urls (UI.log w')
    = ({[new]} ∪ UI.live_urls (UI.log w0)) ∖ list_to_set (option_list prior).
Proof.
  cbv zeta. intros Hd Hmid Ht.
  destruct (Inv_reachable env evs) as [Hs Hr Hu Hc Ho].
  set (w0 := UI.run env evs (UI.init env)) in *.
  destruct (submit_enabled_inv _ Hd) as (_ & _ & _ & _ & Hp).
  pose proof (shape_idle _ Hs Hp) as Hnil.
  destruct (start_enabled env w0 Hd Hs) as (f & g & _ & _ & Hstart).
  assert (Hclick : UI.step env UI.ClickSubmit w0 = UI.start env w0).
  { simpl. by rewrite Hd. }
  rewrite Hclick, Hstart.
  set (ep := Url.endpoint (App.backendUrl (UI.ui w0)) (App.origin env)) in *.
  set (w1 := UI.mkWorld _ _ _ _).
  destruct (run_quiet env mid w1 Hmid eq_refl eq_refl) as (Q1 & Q2 & Q3 & Q4 & Q5 & Q6).
  set (w := UI.run env mid w1) in *.
  assert (Hw' : UI.step env (UI.Settle 0 o) w
                = UI.mkWorld (App.setIsProcessing false
                                (App.setResultImage (Some (UI.next_url w0)) (UI.ui w)))
                    [] (S (UI.next_url w0))
                    (UI.log w0 ++ [Fetch ep f g; CreateObjectURL (UI.next_url w0)]
                       ++ App.revocation (App.resultImage (UI.ui w0)))).
  { simpl. rewrite Q1. simpl. unfold UI.settle.
    rewrite (resume_success _ _ _ _ _ Ht), Q1, Q2, Q3. simpl.
    by rewrite <- app_assoc. }
  rewrite Hw'. clear Hw'. simpl.
  assert (Hret0 : UI.retained w0 = option_list (App.resultImage (UI.ui w0))).
  { unfold UI.retained. rewrite Hnil. simpl. by rewrite app_nil_r. }
  assert (Hprior : ∀ old, App.resultImage (UI.ui w0) = Some old →
                          old < UI.next_url w0 ∧ UI.releases old (UI.log w0) = 0).
  { intros old E. apply Hr. rewrite Hret0, E. apply list_elem_of_here. }
  destruct (Hu (UI.next_url w0)) as [Hnew1 Hnew2]; [lia|].
  split; [|split; [|split; [|split; [|split; [|split; [|split; [|split;
         [|split; [|split; [|split; [|split]]]]]]]]]]].
  - by exists ep, f, g.
  - intros E. destruct (Hprior _ E). lia.
  - exact Hnew1.
  - autorewrite with log_count. rewrite Hnew1. by case_decide.
  - autorewrite with log_count. rewrite Hnew2.
    case_decide as E; [|done]. destruct (Hprior _ E). lia.
  - intros old E. destruct (Hprior _ E) as [_ Hz]. split; [done|].
    autorewrite with log_count. rewrite Hz. by case_decide.
  - done.
  - done.
  - done.
  - exact Hret0.
  - unfold UI.retained. rewrite Q5, Q1. simpl.
    by destruct (App.resultImage (UI.ui w0)).
  - done.
  - destruct (App.resultImage (UI.ui w0)) as [old|] eqn:E; simpl.
    + change [Fetch ep f g; CreateObjectURL (UI.next_url w0); RevokeObjectURL old]
        with ([Fetch ep f g] ++ [CreateObjectURL (UI.next_url w0)]
                ++ [RevokeObjectURL old])%list.
      rewrite !app_assoc, live_urls_snoc_revoke, live_urls_snoc_create,
        live_urls_snoc_fetch.
      set_solver.
    + change [Fetch ep f g; CreateObjectURL (UI.next_url w0)]
        with ([Fetch ep f g] ++ [CreateObjectURL (UI.next_url w0)])%list.
      rewrite !app_assoc, live_urls_snoc_create, live_urls_snoc_fetch.
      set_solver.
Qed.

Lemma success_hands_over_witness :
  let w0 := UI.run Scenario.env
              (Scenario.select_both ++ [UI.ClickSubmit; UI.Settle 0 Scenario.image])
              (UI.init Scenario.env) in
  let w' := UI.step Scenario.env (UI.Settle 0 Scenario.image)
              (UI.run Scenario.env [UI.ToggleConfig]
                 (UI.step Scenario.env UI.ClickSubmit w0)) in
  App.resultImage (UI.ui w0) = Some 0
  ∧ App.resultImage (UI.ui w') = Some 1
  ∧ UI.releases 0 (UI.log w') = 1
  ∧ UI.retained w' = [1].
Proof.
  cbv zeta.
  destruct (success_hands_over Scenario.env
              (Scenario.select_both ++ [UI.ClickSubmit; UI.Settle 0 Scenario.image])
              [UI.ToggleConfig] Scenario.image "PNG"
              eq_refl ltac:(repeat constructor) eq_refl)
    as (_ & _ & _ & _ & _ & Hold & Hres & _ & _ & _ & _ & Hret & _).
  split; [reflexivity|]. split; [exact Hres|].
  split; [apply (Hold 0); reflexivity |].
  exact Hret.
Defined.

(** C2, where the code falls short of it: a first run succeeds, a second
    run of the same files fails, a third succeeds.  The third submission
    creates URL 1 and puts it on display, and releases nothing: the
    handler holds no earlier URL, the second run having cleared URL 0 from
    the state without a release.  After this successful submission the
    browser holds two object URLs, 0 and 1, of which the component names
    the second only. *)
Theorem success_after_failed_rerun_two_live :
  let w0 := UI.run Scenario.env Scenario.failed_rerun (UI.init Scenario.env) in
  let w := UI.step Scenario.env UI.ClickSubmit w0 in
  let w' := UI.step Scenario.env (UI.Settle 0 Scenario.image) w in
  App.submit_disabled (UI.ui w0) = false
  ∧ UI.log w' = (UI.log w0
                   ++ [Fetch "http://x/api/procesar/" Scenario.document Scenario.geometry;
                       CreateObjectURL 1])%list
  ∧ App.resultImage (UI.ui w') = Some 1
  ∧ UI.retained w' = [1]
  ∧ UI.releases 0 (UI.log w') = 0
  ∧ UI.live_urls (UI.log w') = {[1]} ∪ ({[0]} ∪ ∅)
  ∧ size (UI.live_urls (UI.log w')) = 2.
Proof.
  cbv zeta. repeat split.
Qed.

(** ** Object URLs that are never released *)

Section Leak.

Import App UI.

Lemma retained_pending (w : World) (i : nat) (p : Pending) (old : ObjURL) :
  inflight w !! i = Some p → p_resultImage p = Some old → old ∈ retained w.
Proof.
  intros Hl Hp. unfold retained. apply elem_of_app. right.
  apply list_elem_of_omap. exists p. split; [|done].
  by eapply list_elem_of_lookup_2.
Qed.

Lemma retained_displayed (w : World) (u : ObjURL) :
  resultImage (ui w) = Some u → u ∈ retained w.
Proof.
  intros H. unfold retained. rewrite H. apply elem_of_app. left.
  apply list_elem_of_here.
Qed.

Lemma omap_delete_subset (i : nat) (l : list Pending) (u : ObjURL) :
  u ∈ omap p_resultImage (delete i l) → u ∈ omap p_resultImage l.
Proof.
  rewrite !list_elem_of_omap. intros (p & Hin & Hp).
  exists p. split; [|done]. by eapply list_elem_of_delete_inv.
Qed.

(** A URL that exists and that the component cannot name any more stays
    that way, and no step releases it. *)
Lemma step_unretained (env : Env) (ev : Event) (w : World) (u : ObjURL) :
  u < next_url w → (u ∉ retained w) →
  u < next_url (step env ev w) ∧ (u ∉ retained (step env ev w))
  ∧ releases u (log (step env ev w)) = releases u (log w).
Proof.
  intros Hlt Hnot. destruct ev as [sl a| | |i o|v|]; simpl.
  - destruct (foldl_onFileSelect sl (selections a) (ui w)) as (_ & _ & _ & G4 & _).
    unfold retained in *. simpl. by rewrite G4.
  - destruct (submit_disabled (ui w)); [done|].
    unfold start, handleProcess.
    destruct (pdf (ui w)) as [f|], (shp (ui w)) as [g|]; simpl;
      rewrite ?app_nil_r; try (by destruct w).
    split; [done|]. split.
    + unfold retained in *. simpl. rewrite omap_app. simpl.
      intros Hin. apply Hnot. apply elem_of_app in Hin as [Hin|Hin].
      * apply elem_of_app. by right.
      * apply elem_of_app. left.
        by destruct (resultImage (ui w)).
    + by autorewrite with log_count.
  - destruct (resultImage (ui w)) as [u0|] eqn:Hres; [|done].
    unfold reset, handleReset. simpl.
    split; [done|]. split.
    + unfold retained in *. simpl. intros Hin. apply Hnot.
      apply elem_of_app. by right.
    + autorewrite with log_count. case_decide as E; [|lia].
      exfalso. apply Hnot. apply retained_displayed. congruence.
  - destruct (inflight w !! i) as [p|] eqn:Hl; [|done].
    unfold settle. destruct (try_body o) as [message|b] eqn:Ht.
    + rewrite (resume_failure _ _ _ _ _ Ht). simpl.
      split; [done|]. split; [|by rewrite app_nil_r].
      unfold retained in *. simpl. intros Hin. apply Hnot.
      apply elem_of_app in Hin as [Hin|Hin]; apply elem_of_app;
        [by left | right; by eapply omap_delete_subset].
    + rewrite (resume_success _ _ _ _ _ Ht). simpl.
      split; [lia|]. split.
      * unfold retained in *. simpl. intros Hin.
        apply elem_of_cons in Hin as [->|Hin]; [lia|].
        apply Hnot. apply elem_of_app. right. by eapply omap_delete_subset.
      * autorewrite with log_count. case_decide as E; [|lia].
        exfalso. apply Hnot. by eapply retained_pending.
  - done.
  - done.
Qed.

Lemma run_unretained (env : Env) (evs : list Event) (w : World) (u : ObjURL) :
  u < next_url w → (u ∉ retained w) →
  releases u (log (run env evs w)) = releases u (log w).
Proof.
  revert w. induction evs as [|ev evs IH]; intros w Hlt Hnot; [done|].
  destruct (step_unretained env ev w u Hlt Hnot) as (H1 & H2 & H3).
  change (run env (ev :: evs) w) with (run env evs (step env ev w)).
  by rewrite IH, H3.
Qed.

(** No object URL is released twice. *)
Lemma released_at_most_once (env : Env) (evs : list Event) (u : ObjURL) :
  (releases u (log (run env evs (init env))) ≤ 1)%nat.
Proof. apply (inv_once _ (Inv_reachable env evs)). Qed.

End Leak.

(** C3, where the code falls short of it: a first run succeeds and puts
    the object URL 0 on display, the files are submitted again and the
    second run fails.  URL 0 was created once and never released, the
    component retains no URL at all, and whatever happens on the page
    afterwards, resets included, URL 0 is never released. *)
Theorem failed_rerun_leaks_url :
  let w := UI.run Scenario.env Scenario.failed_rerun (UI.init Scenario.env) in
  UI.creations 0 (UI.log w) = 1
  ∧ UI.releases 0 (UI.log w) = 0
  ∧ UI.retained w = []
  ∧ UI.inflight w = []
  ∧ 0 ∈ UI.live_urls (UI.log w)
  ∧ ∀ evs, UI.releases 0 (UI.log (UI.run Scenario.env evs w)) = 0.
Proof.
  cbv zeta. split; [reflexivity|]. split; [reflexivity|].
  split; [reflexivity|]. split; [reflexivity|]. split.
  - vm_compute UI.log. unfold UI.live_urls. simpl. set_solver.
  - intros evs. rewrite run_unretained.
    + reflexivity.
    + vm_compute. lia.
    + vm_compute UI.retained. apply not_elem_of_nil.
Qed.

(** ** Runs of the page, evaluated *)

Example run_success :
  let w := UI.run Scenario.env
             (Scenario.select_both ++ [UI.ClickSubmit; UI.Settle 0 Scenario.image])
             (UI.init Scenario.env) in
  App.resultImage (UI.ui w) = Some 0 ∧ App.errorDetails (UI.ui w) = None
  ∧ App.isProcessing (UI.ui w) = false
  ∧ UI.log w = [Fetch "http://x/api/procesar/" Scenario.document Scenario.geometry;
                CreateObjectURL 0].
Proof. repeat split. Qed.

Example run_detail :
  App.errorDetails
    (UI.ui (UI.step Scenario.env (UI.Settle 0 Scenario.invalid_geometry) Scenario.submitted))
  = Some "invalid geometry (URL: http://x/api/procesar/)".
Proof. reflexivity. Qed.

Example run_unparseable :
  App.errorDetails
    (UI.ui (UI.step Scenario.env (UI.Settle 0 Scenario.unparseable) Scenario.submitted))
  = Some "Internal Server Error (URL: http://x/api/procesar/)".
Proof. reflexivity. Qed.

Example run_unreachable :
  App.errorDetails
    (UI.ui (UI.step Scenario.env (UI.Settle 0 Scenario.unreachable) Scenario.submitted))
  = Some "Failed to fetch (URL: http://x/api/procesar/)".
Proof. reflexivity. Qed.

Example run_reset_then_rerun :
  UI.log (UI.run Scenario.env
            (Scenario.select_both
               ++ [UI.ClickSubmit; UI.Settle 0 Scenario.image; UI.ClickReset]
               ++ Scenario.select_both
               ++ [UI.ClickSubmit; UI.Settle 0 Scenario.image])
            (UI.init Scenario.env))
  = [Fetch "http://x/api/procesar/" Scenario.document Scenario.geometry;
     CreateObjectURL 0; RevokeObjectURL 0;
     Fetch "http://x/api/procesar/" Scenario.document Scenario.geometry;
     CreateObjectURL 1].
Proof. reflexivity. Qed.

Example thrown_message_without_detail :
  App.thrown_message (App.mkResponse false "Bad Request" (Some (Json.JObj [])) (inr ""))
  = "Error processing files".
Proof. reflexivity. Qed.

Example thrown_message_null_body :
  App.thrown_message (App.mkResponse false "Bad Request" (Some Json.JNull) (inr ""))
  = Json.null_read_message.
Proof. reflexivity. Qed.

Example endpoint_x_slash : Url.endpoint "http://x/" None = "http://x/api/procesar/".
Proof. reflexivity. Qed.

Example endpoint_x_two : Url.endpoint "http://x//" None = "http://x//api/procesar/".
Proof. reflexivity. Qed.

Example endpoint_origin : Url.endpoint "" (Some "https://h") = "https://h/api/procesar/".
Proof. reflexivity. Qed.

(** * Further properties of the component *)

(** ** The two ways to select a file *)

(** X1: a drop and a choice in the picker with the same file list select
    alike and differ on the surface's dragging flag.  Either one puts the
    first file of the list into its slot, whatever the slot held, and
    leaves the rest of the component as it was; with an empty or missing
    list neither changes the component.  The drop clears the dragging flag
    of its surface, the choice in the picker leaves it as it is, and
    neither touches the flag of the other surface. *)
Theorem drop_and_pick_select_alike (env : App.Env) (sl : UI.Slot)
    (files : option (list File)) (pg : Zones.Page) :
  let dropped := Zones.zone_step env sl (Zones.ZDrop files) pg in
  let picked := Zones.zone_step env sl (Zones.ZPick files) pg in
  Zones.world dropped = Zones.world picked
  ∧ Zones.dragging sl dropped = false
  ∧ Zones.dragging sl picked = Zones.dragging sl pg
  ∧ (∀ sl', sl' ≠ sl →
       Zones.dragging sl' dropped = Zones.dragging sl' pg
       ∧ Zones.dragging sl' picked = Zones.dragging sl' pg)
  ∧ (∀ f rest, files = Some (f :: rest) →
       Zones.world picked
       = UI.with_ui (UI.onFileSelect sl (Some f) (UI.ui (Zones.world pg))) (Zones.world pg))
  ∧ (files = None ∨ files = Some [] →
       picked = pg ∧ Zones.world dropped = Zones.world pg).
Proof.
  cbv zeta. destruct pg as [w dp ds].
  split; [by destruct sl|]. split; [by destruct sl|]. split; [by destruct sl|].
  split; [intros sl' Hne; by destruct sl, sl'|]. split.
  - intros f rest ->. by destruct sl.
  - intros [-> | ->]; destruct w, sl; done.
Qed.

Lemma drop_and_pick_select_alike_witness :
  let pg := Zones.mkPage Scenario.submitted true false in
  let files := Some [Scenario.extra; Scenario.document] in
  App.pdf (UI.ui (Zones.world (Zones.zone_step Scenario.env UI.PdfSlot (Zones.ZPick files) pg)))
  = Some Scenario.extra
  ∧ Zones.pdf_dragging (Zones.zone_step Scenario.env UI.PdfSlot (Zones.ZPick files) pg) = true
  ∧ Zones.pdf_dragging (Zones.zone_step Scenario.env UI.PdfSlot (Zones.ZDrop files) pg) = false.
Proof.
  cbv zeta.
  destruct (drop_and_pick_select_alike Scenario.env UI.PdfSlot
              (Some [Scenario.extra; Scenario.document])
              (Zones.mkPage Scenario.submitted true false))
    as (_ & Hd & Hp & _ & Hf & _).
  split; [|split; [exact Hp | exact Hd]].
  rewrite (Hf Scenario.extra [Scenario.document] eq_refl). reflexivity.
Defined.

(** X2: on one surface, the dragging flag after any events depends on the
    last drag or drop alone: it is set after [dragenter] and [dragover],
    cleared after [dragleave] and after a drop, and a click leaves it.
    The files forwarded are the first files of the drops that carried
    some, in order, so never more than one per drop. *)
Theorem dragging_follows_last_event (evs : list Surface.SurfaceEvent)
    (ev : Surface.SurfaceEvent) (d : bool) :
  Surface.dragging_after (evs ++ [ev]) d
  = match ev with
    | Surface.Drag Dropzone.dragenter | Surface.Drag Dropzone.dragover => true
    | Surface.Drag Dropzone.dragleave | Surface.DropFiles _ => false
    | Surface.Click => Surface.dragging_after evs d
    end
  ∧ (length (Surface.forwarded (evs ++ [ev]))
     ≤ length (Surface.forwarded evs) + 1)%nat.
Proof.
  split.
  - unfold Surface.dragging_after. rewrite foldl_app. simpl.
    by destruct ev as [[| |]| |].
  - unfold Surface.forwarded. rewrite bind_app, length_app. simpl.
    destruct ev as [ty|[[|f rest]|]|]; simpl; lia.
Qed.

(** X3: actions on the two slots do not interfere: an action on the
    document slot and one on the geometry slot give the same page in
    either order. *)
Theorem slot_actions_commute (env : App.Env) (a b : UI.SlotAction) (w : UI.World) :
  UI.step env (UI.OnSlot UI.PdfSlot a) (UI.step env (UI.OnSlot UI.ShpSlot b) w)
  = UI.step env (UI.OnSlot UI.ShpSlot b) (UI.step env (UI.OnSlot UI.PdfSlot a) w).
Proof.
  destruct w as [s infl n l].
  destruct a as [[[|f r]|]|[[|f r]|]|], b as [[[|g r']|]|[[|g r']|]|]; reflexivity.
Qed.

(** ** Reset *)

Lemma handleReset_idempotent (s : App.State) :
  App.handleReset (App.handleReset s).1 = ((App.handleReset s).1, []).
Proof. reflexivity. Qed.

(** X4: in every state the page can reach that shows a result, a click on
    the reset button brings the component back to the state of a fresh
    page, the settings apart: both slots empty, nothing in flight, no
    result, no error; the one call made is the release of the URL that was
    on display; and a second click finds no button and does nothing. *)
Theorem reset_returns_to_initial (env : App.Env) (evs : list UI.Event) (u : ObjURL) :
  let w := UI.run env evs (UI.init env) in
  App.resultImage (UI.ui w) = Some u →
  let w' := UI.step env UI.ClickReset w in
  UI.ui w' = App.setShowConfig (App.showConfig (UI.ui w))
               (App.setBackendUrl (App.backendUrl (UI.ui w)) (App.initial env))
  ∧ UI.inflight w' = []
  ∧ UI.log w' = (UI.log w ++ [RevokeObjectURL u])%list
  ∧ UI.retained w' = []
  ∧ UI.step env UI.ClickReset w' = w'.
Proof.
  cbv zeta. intros Hres. destruct (Inv_reachable env evs) as [Hs _ _ _ _].
  set (w := UI.run env evs (UI.init env)) in *.
  pose proof (shape_displayed _ _ Hs Hres) as Hnil.
  assert (Hp : App.isProcessing (UI.ui w) = false).
  { unfold UI.shape in Hs. by rewrite Hnil in Hs. }
  assert (Hw' : UI.step env UI.ClickReset w
                = UI.mkWorld
                    (App.setErrorDetails None
                       (App.setResultImage None
                          (App.setShp None (App.setPdf None (UI.ui w)))))
                    [] (UI.next_url w) (UI.log w ++ [RevokeObjectURL u])).
  { simpl. rewrite Hres. unfold UI.reset, App.handleReset. by rewrite Hres, Hnil. }
  rewrite Hw'. clear Hw'. split; [|done].
  destruct (UI.ui w) as [a b c d e f g]. simpl in *. by subst.
Qed.

Lemma reset_returns_to_initial_witness :
  let w := UI.run Scenario.env
             (Scenario.select_both ++ [UI.ClickSubmit; UI.Settle 0 Scenario.image])
             (UI.init Scenario.env) in
  UI.ui (UI.step Scenario.env UI.ClickReset w) = App.initial Scenario.env
  ∧ UI.log (UI.step Scenario.env UI.ClickReset w) = (UI.log w ++ [RevokeObjectURL 0])%list.
Proof.
  cbv zeta.
  destruct (reset_returns_to_initial Scenario.env
              (Scenario.select_both ++ [UI.ClickSubmit; UI.Settle 0 Scenario.image])
              0 eq_refl) as (H1 & _ & H2 & _).
  split; [exact H1 | exact H2].
Defined.

(** ** What the page shows *)

Section Tidy.

Import App UI Trace.

Variable env : Env.

Lemma error_text_nonempty (message endpoint : string) : error_text message endpoint ≠ "".
Proof.
  unfold error_text. destruct message as [|c m]; [done|].
  rewrite append_cons. done.
Qed.

Lemma tidy_step (ev : Event) (w : World) :
  Inv w → tidy (ui w) → tidy (ui (step env ev w)).
Proof.
  intros [Hs _ _ _ _] HT. pose proof HT as [Hx Hne].
  destruct ev as [sl a| | |i o|v|]; simpl.
  - destruct (foldl_onFileSelect sl (selections a) (ui w)) as (_ & _ & _ & G4 & G5 & _).
    unfold tidy. by rewrite G4, G5.
  - destruct (submit_disabled (ui w)) eqn:Hd; [done|].
    destruct (start_enabled env w Hd Hs) as (f & g & _ & _ & ->).
    split; simpl; [by left | done].
  - destruct (resultImage (ui w)) eqn:E; [|done]. split; simpl; [by left | done].
  - destruct (inflight w !! i) as [p|] eqn:Hl; [|done].
    destruct (shape_lookup _ _ _ Hs Hl) as (-> & Hinf & Hp & Hres & Herr).
    unfold settle. destruct (try_body o) as [message|b] eqn:Ht.
    + rewrite (resume_failure _ _ _ _ _ Ht). split; simpl; [by left|].
      intros t [= <-]. apply error_text_nonempty.
    + rewrite (resume_success _ _ _ _ _ Ht). split; simpl; [by right|].
      by rewrite Herr.
  - done.
  - done.
Qed.

Lemma tidy_reachable (evs : list Event) :
  Inv (run env evs (init env)) ∧ tidy (ui (run env evs (init env))).
Proof.
  induction evs as [|ev evs IH] using rev_ind.
  - split; [apply Inv_init|]. split; simpl; [by left | done].
  - rewrite run_app. simpl. destruct IH as [HI HT].
    split; [by apply Inv_step | by apply tidy_step].
Qed.

End Tidy.

(** X5: in every state the page can reach, the spinner, the error box and
    the result view exclude each other, the error box shows exactly the
    recorded message, and while the spinner turns the button is disabled;
    the hint under the button shows exactly when the button is not drawn
    as ready, and then the button is disabled too. *)
Theorem view_shows_one_thing (env : App.Env) (evs : list UI.Event) :
  let v := Render.render (UI.ui (UI.run env evs (UI.init env))) in
  (Render.spinner v = true →
   Render.error_box v = None ∧ Render.result_view v = None
   ∧ Render.button_disabled v = true)
  ∧ (Render.error_box v = None ∨ Render.result_view v = None)
  ∧ Render.error_box v = App.errorDetails (UI.ui (UI.run env evs (UI.init env)))
  ∧ (Render.hint v = true → Render.button_disabled v = true).
Proof.
  cbv zeta. destruct (tidy_reachable env evs) as [[Hs _ _ _ _] [Hx Hne]].
  set (w := UI.run env evs (UI.init env)) in *.
  assert (E : Render.truthy_text (App.errorDetails (UI.ui w)) = App.errorDetails (UI.ui w)).
  { destruct (App.errorDetails (UI.ui w)) as [t|] eqn:Et; [|done].
    simpl. destruct (String.eqb_spec t ""); [|done]. by destruct (Hne t). }
  unfold Render.render. simpl. rewrite E.
  split; [|split; [|split]].
  - intros Hp. destruct (shape_busy _ Hs Hp) as (p & _ & H1 & H2).
    split; [done|]. split; [done|].
    unfold App.submit_disabled. rewrite Hp. by rewrite orb_true_r.
  - destruct Hx; [by right | by left].
  - done.
  - unfold App.submit_disabled, App.readyToSubmit.
    destruct (App.pdf (UI.ui w)), (App.shp (UI.ui w)); simpl; try done.
Qed.

Lemma view_shows_one_thing_witness :
  Render.error_box (Render.render (UI.ui Scenario.submitted)) = None
  ∧ Render.result_view (Render.render (UI.ui Scenario.submitted)) = None
  ∧ Render.button_disabled (Render.render (UI.ui Scenario.submitted)) = true.
Proof.
  apply (view_shows_one_thing Scenario.env (Scenario.select_both ++ [UI.ClickSubmit])).
  reflexivity.
Defined.

(** X6: whatever [fetch] comes to, the completion of the request in flight
    ends the processing: afterwards [isProcessing] is false and no request
    is in flight, exactly one of result and error message is set, the two
    slots and the backend URL are what they were, and the button is enabled
    exactly when both slots still hold a file, so the same files can be
    submitted again. *)
Theorem settle_ends_processing (env : App.Env) (evs : list UI.Event)
    (o : App.FetchOutcome) :
  let w := UI.run env evs (UI.init env) in
  App.isProcessing (UI.ui w) = true →
  let w' := UI.step env (UI.Settle 0 o) w in
  App.isProcessing (UI.ui w') = false ∧ UI.inflight w' = []
  ∧ (is_Some (App.resultImage (UI.ui w')) ↔ App.errorDetails (UI.ui w') = None)
  ∧ App.pdf (UI.ui w') = App.pdf (UI.ui w) ∧ App.shp (UI.ui w') = App.shp (UI.ui w)
  ∧ App.backendUrl (UI.ui w') = App.backendUrl (UI.ui w)
  ∧ App.submit_disabled (UI.ui w') = negb (App.readyToSubmit (UI.ui w')).
Proof.
  cbv zeta. intros Hp. destruct (Inv_reachable env evs) as [Hs _ _ _ _].
  set (w := UI.run env evs (UI.init env)) in *.
  destruct (shape_busy _ Hs Hp) as (p & Hinf & Hres & Herr).
  simpl. rewrite Hinf. simpl. unfold UI.settle.
  destruct (App.try_body o) as [message|b] eqn:Ht.
  - rewrite (resume_failure _ _ _ _ _ Ht). simpl.
    unfold App.submit_disabled, App.readyToSubmit. simpl.
    rewrite Hres, Hinf, orb_false_r, negb_involutive.
    repeat split; try done; by intros [? ?].
  - rewrite (resume_success _ _ _ _ _ Ht). simpl.
    unfold App.submit_disabled, App.readyToSubmit. simpl.
    rewrite Herr, Hinf, orb_false_r, negb_involutive.
    repeat split; try done; by eexists.
Qed.

Lemma settle_ends_processing_witness :
  let w' := UI.step Scenario.env (UI.Settle 0 Scenario.unparseable) Scenario.submitted in
  App.isProcessing (UI.ui w') = false
  ∧ App.submit_disabled (UI.ui w') = false.
Proof.
  cbv zeta.
  destruct (settle_ends_processing Scenario.env (Scenario.select_both ++ [UI.ClickSubmit])
              Scenario.unparseable eq_refl) as (H1 & _ & _ & _ & _ & _ & H2).
  split; [exact H1|]. exact (eq_trans H2 eq_refl).
Defined.

(** X7: an error message, once on the page, stays through every event but
    the click that starts a new submission: the reset button is not there
    (a click on it changes nothing), no request is in flight to complete,
    and the actions on the slots and the settings leave the message. *)
Theorem error_stays_until_resubmission (env : App.Env) (evs : list UI.Event)
    (t : string) (ev : UI.Event) :
  let w := UI.run env evs (UI.init env) in
  App.errorDetails (UI.ui w) = Some t →
  UI.step env UI.ClickReset w = w
  ∧ (App.errorDetails (UI.ui (UI.step env ev w)) = Some t
     ∨ (ev = UI.ClickSubmit ∧ App.submit_disabled (UI.ui w) = false
        ∧ App.errorDetails (UI.ui (UI.step env ev w)) = None)).
Proof.
  cbv zeta. intros Ht.
  destruct (tidy_reachable env evs) as [[Hs _ _ _ _] [Hx _]].
  set (w := UI.run env evs (UI.init env)) in *.
  assert (Hres : App.resultImage (UI.ui w) = None).
  { destruct Hx as [H|H]; [done | congruence]. }
  assert (Hinf : UI.inflight w = []).
  { unfold UI.shape in Hs. destruct (UI.inflight w) as [|p [|q r]]; try done.
    destruct Hs as (_ & _ & H). congruence. }
  split; [simpl; by rewrite Hres|].
  destruct ev as [sl a| | |i o|v|]; simpl.
  - left. destruct (foldl_onFileSelect sl (UI.selections a) (UI.ui w))
      as (_ & _ & _ & _ & G5 & _). by rewrite G5.
  - destruct (App.submit_disabled (UI.ui w)) eqn:Hd; [by left|].
    right. destruct (start_enabled env w Hd Hs) as (f & g & _ & _ & ->). done.
  - left. by rewrite Hres.
  - left. rewrite Hinf. by destruct i.
  - by left.
  - by left.
Qed.

Lemma error_stays_until_resubmission_witness :
  let w := UI.step Scenario.env (UI.Settle 0 Scenario.unreachable) Scenario.submitted in
  UI.step Scenario.env UI.ClickReset w = w.
Proof.
  cbv zeta.
  apply (error_stays_until_resubmission Scenario.env
           (Scenario.select_both ++ [UI.ClickSubmit; UI.Settle 0 Scenario.unreachable])
           "Failed to fetch (URL: http://x/api/procesar/)" UI.ClickReset eq_refl).
Defined.

(** ** Object URLs in use *)

Section Live.

Import App UI Trace.

Variable env : Env.

Lemma live_urls_app_create_revocation (l : list Effect) (new : ObjURL)
    (old : option ObjURL) :
  old ≠ Some new →
  new ∈ live_urls (l ++ CreateObjectURL new :: revocation old).
Proof.
  intros Hne. destruct old as [o|]; simpl.
  - change (l ++ [CreateObjectURL new; RevokeObjectURL o])%list
      with (l ++ [CreateObjectURL new] ++ [RevokeObjectURL o])%list.
    rewrite app_assoc, live_urls_snoc_revoke, live_urls_snoc_create.
    assert (new ≠ o) by congruence. set_solver.
  - rewrite live_urls_snoc_create. set_solver.
Qed.

Lemma retained_live_step (ev : Event) (w : World) :
  Inv w → retained_live w → retained_live (step env ev w).
Proof.
  intros [Hs Hr _ _ _] HL. destruct ev as [sl a| | |i o|v|]; simpl.
  - destruct (foldl_onFileSelect sl (selections a) (ui w)) as (_ & _ & _ & G4 & _).
    unfold retained_live, retained in *. simpl. by rewrite G4.
  - destruct (submit_disabled (ui w)) eqn:Hd; [done|].
    destruct (submit_enabled_inv _ Hd) as (_ & _ & _ & _ & Hp).
    pose proof (shape_idle _ Hs Hp) as Hnil.
    destruct (start_enabled env w Hd Hs) as (f & g & _ & _ & ->).
    intros u Hin. simpl. rewrite live_urls_snoc_fetch. apply HL.
    unfold retained in *. simpl in *. rewrite Hnil, app_nil_r.
    by destruct (resultImage (ui w)).
  - destruct (resultImage (ui w)) as [u0|] eqn:Hres; [|done].
    pose proof (shape_displayed _ _ Hs Hres) as Hnil.
    intros u Hin. unfold retained, reset, handleReset in Hin. simpl in Hin.
    rewrite Hnil in Hin. by apply elem_of_nil in Hin.
  - destruct (inflight w !! i) as [p|] eqn:Hl; [|done].
    destruct (shape_lookup _ _ _ Hs Hl) as (-> & Hinf & Hp & Hres & Herr).
    unfold settle. destruct (try_body o) as [message|b] eqn:Ht.
    + rewrite (resume_failure _ _ _ _ _ Ht). intros u Hin.
      unfold retained in Hin. simpl in Hin. rewrite Hres, Hinf in Hin.
      by apply elem_of_nil in Hin.
    + rewrite (resume_success _ _ _ _ _ Ht). intros u Hin.
      unfold retained in Hin. simpl in Hin. rewrite Hinf in Hin. simpl in Hin.
      apply list_elem_of_singleton in Hin as ->. simpl.
      apply live_urls_app_create_revocation. intros E.
      destruct (Hr (next_url w)) as [Hlt _]; [|lia].
      unfold retained. rewrite Hres, Hinf. simpl. rewrite E. apply list_elem_of_here.
  - done.
  - done.
Qed.

Lemma retained_live_reachable (evs : list Event) :
  Inv (run env evs (init env)) ∧ retained_live (run env evs (init env)).
Proof.
  induction evs as [|ev evs IH] using rev_ind.
  - split; [apply Inv_init|]. intros u Hin. by apply elem_of_nil in Hin.
  - rewrite run_app. simpl. destruct IH as [HI HL].
    split; [by apply Inv_step | by apply retained_live_step].
Qed.

End Live.

(** X8: in every state the page can reach, the object URL on display (the
    [src] of the image and the [href] of the download link) exists and has
    not been revoked: it was created once, released never, and the browser
    still holds it.  The same holds for the URL a request in flight has
    captured for its later release. *)
Theorem displayed_url_is_live (env : App.Env) (evs : list UI.Event) (u : ObjURL) :
  let w := UI.run env evs (UI.init env) in
  Render.result_view (Render.render (UI.ui w)) = Some u
  ∨ (∃ p, p ∈ UI.inflight w ∧ App.p_resultImage p = Some u) →
  UI.creations u (UI.log w) = 1 ∧ UI.releases u (UI.log w) = 0
  ∧ u ∈ UI.live_urls (UI.log w).
Proof.
  cbv zeta. intros H.
  destruct (retained_live_reachable env evs) as [[_ Hr _ Hc _] HL].
  set (w := UI.run env evs (UI.init env)) in *.
  assert (Hin : u ∈ UI.retained w).
  { destruct H as [H|(p & Hp & E)].
    - by apply retained_displayed.
    - apply list_elem_of_lookup in Hp as [i Hi]. by eapply retained_pending. }
  destruct (Hr u Hin) as [Hlt Hz].
  split; [by apply Hc|]. split; [done | by apply HL].
Qed.

Lemma displayed_url_is_live_witness :
  let w := UI.run Scenario.env
             (Scenario.select_both ++ [UI.ClickSubmit; UI.Settle 0 Scenario.image])
             (UI.init Scenario.env) in
  UI.creations 0 (UI.log w) = 1 ∧ UI.releases 0 (UI.log w) = 0
  ∧ 0 ∈ UI.live_urls (UI.log w).
Proof.
  apply (displayed_url_is_live Scenario.env
           (Scenario.select_both ++ [UI.ClickSubmit; UI.Settle 0 Scenario.image]) 0).
  left. reflexivity.
Defined.

(** X9: in every state the page can reach and for every object URL: it
    was created at most once, it was released at most as often as it was
    created (so never before its creation and never twice), and the URLs
    created so far are exactly those below the browser's next one. *)
Theorem url_released_at_most_as_created (env : App.Env) (evs : list UI.Event)
    (u : ObjURL) :
  let w := UI.run env evs (UI.init env) in
  (UI.creations u (UI.log w) ≤ 1)%nat
  ∧ (UI.releases u (UI.log w) ≤ UI.creations u (UI.log w))%nat
  ∧ (UI.creations u (UI.log w) = 1 ↔ u < UI.next_url w).
Proof.
  cbv zeta. destruct (Inv_reachable env evs) as [_ _ Hu Hc Ho].
  set (w := UI.run env evs (UI.init env)) in *.
  destruct (decide (u < UI.next_url w)) as [Hlt|Hge].
  - rewrite (Hc u Hlt). pose proof (Ho u). repeat split; try lia; done.
  - destruct (Hu u) as [-> ->]; [lia|]. repeat split; try lia; done.
Qed.

(** ** Requests *)

Section Requests.

Import App UI Trace.

Variable env : Env.

Lemma fetches_app (l l' : list Effect) : fetches (l ++ l') = fetches l + fetches l'.
Proof. unfold fetches. by rewrite filter_app, length_app. Qed.

Lemma fetches_revocation (o : option ObjURL) : fetches (revocation o) = 0.
Proof. by destruct o. Qed.

(** One step: requests and URLs against the log, and the log against the
    clicks. *)
Lemma requests_step (ev : Event) (w : World) :
  (next_url w + length (inflight w) ≤ fetches (log w))%nat →
  (next_url (step env ev w) + length (inflight (step env ev w))
   ≤ fetches (log (step env ev w)))%nat
  ∧ (fetches (log (step env ev w))
     ≤ fetches (log w) + (if is_submit ev then 1 else 0))%nat.
Proof.
  intros H. destruct ev as [sl a| | |i o|v|]; simpl.
  - lia.
  - destruct (submit_disabled (ui w)); [lia|].
    unfold start, handleProcess.
    destruct (pdf (ui w)) as [f|], (shp (ui w)) as [g|]; simpl;
      rewrite ?app_nil_r; try lia.
    rewrite fetches_app, length_app. simpl. unfold fetches at 2 4. simpl. lia.
  - destruct (resultImage (ui w)) as [u0|]; [|lia].
    unfold reset, handleReset. simpl. rewrite fetches_app, fetches_revocation. lia.
  - destruct (inflight w !! i) as [p|] eqn:Hl; [|lia].
    pose proof (lookup_lt_Some _ _ _ Hl) as Hlt.
    assert (Hd : length (delete i (inflight w)) = length (inflight w) - 1).
    { apply length_delete. by eexists. }
    unfold settle. destruct (try_body o) as [message|b] eqn:Ht.
    + rewrite (resume_failure _ _ _ _ _ Ht). simpl. rewrite app_nil_r, Hd. lia.
    + rewrite (resume_success _ _ _ _ _ Ht). simpl.
      change (CreateObjectURL (next_url w) :: ?k)
        with ([CreateObjectURL (next_url w)] ++ k)%list.
      rewrite !fetches_app, fetches_revocation, Hd. unfold fetches at 2 4. simpl. lia.
  - lia.
  - lia.
Qed.

Lemma requests_run (evs : list Event) :
  let w := run env evs (init env) in
  (next_url w + length (inflight w) ≤ fetches (log w))%nat
  ∧ (fetches (log w) ≤ submit_clicks evs)%nat.
Proof.
  induction evs as [|ev evs IH] using rev_ind; [simpl; split; reflexivity|].
  cbv zeta in *. rewrite run_app. simpl. destruct IH as [H1 H2].
  destruct (requests_step ev (run env evs (init env)) H1) as [G1 G2].
  split; [exact G1|].
  unfold submit_clicks. rewrite filter_app, length_app.
  fold (submit_clicks evs). rewrite filter_cons, filter_nil.
  destruct ev; simpl in *; lia.
Qed.

End Requests.

(** X10: object URLs come from requests, and requests from clicks: in
    every state the page can reach, the number of object URLs created plus
    the number of requests in flight is at most the number of calls of
    [fetch], which is at most the number of clicks on the submit button;
    nothing is fetched or created without a click. *)
Theorem urls_bounded_by_requests (env : App.Env) (evs : list UI.Event) :
  let w := UI.run env evs (UI.init env) in
  (UI.next_url w + length (UI.inflight w) ≤ UI.fetches (UI.log w))%nat
  ∧ (UI.fetches (UI.log w) ≤ Trace.submit_clicks evs)%nat
  ∧ (Trace.submit_clicks evs = 0 → UI.log w = []).
Proof.
  cbv zeta. destruct (requests_run env evs) as [H1 H2].
  destruct (Inv_reachable env evs) as [_ _ Hu Hc Ho].
  set (w := UI.run env evs (UI.init env)) in *.
  split; [exact H1|]. split; [exact H2|].
  intros Hz. assert (Hn : UI.next_url w = 0) by lia.
  destruct (UI.log w) as [|e l] eqn:El; [done|]. exfalso.
  destruct e as [ep f g|u|u].
  - unfold UI.fetches in H2. simpl in H2. lia.
  - destruct (Hu u) as [Hcz _]; [lia|]. rewrite creations_create in Hcz.
    case_decide; [lia | done].
  - destruct (Hu u) as [_ Hrz]; [lia|]. rewrite releases_revoke in Hrz.
    case_decide; [lia | done].
Qed.

Lemma urls_bounded_by_requests_witness :
  UI.log (UI.run Scenario.env
            [UI.OnSlot UI.PdfSlot (UI.Pick (Some [Scenario.document])); UI.ClickReset;
             UI.Settle 0 Scenario.image]
            (UI.init Scenario.env)) = [].
Proof.
  apply (urls_bounded_by_requests Scenario.env
           [UI.OnSlot UI.PdfSlot (UI.Pick (Some [Scenario.document])); UI.ClickReset;
            UI.Settle 0 Scenario.image]).
  reflexivity.
Defined.

(** X11: a request keeps what the page held at the click.  From any state
    with the button enabled: the click fetches the endpoint made from the
    backend URL of that moment, with the file of the document slot as part
    [pdf] and the file of the geometry slot as part [shp]; whatever is
    edited, selected or removed while the request is in flight, a failure
    records the error text with that same endpoint, makes no further call
    and sets no result. *)
Theorem request_keeps_click_configuration (env : App.Env) (evs mid : list UI.Event)
    (o : App.FetchOutcome) (message : string) :
  let w0 := UI.run env evs (UI.init env) in
  App.submit_disabled (UI.ui w0) = false →
  Forall (fun ev => UI.is_settle ev = false) mid →
  App.try_body o = inl message →
  let w' := UI.step env (UI.Settle 0 o) (UI.run env mid (UI.step env UI.ClickSubmit w0)) in
  let endpoint := Url.endpoint (App.backendUrl (UI.ui w0)) (App.origin env) in
  ∃ f g,
    App.pdf (UI.ui w0) = Some f ∧ App.shp (UI.ui w0) = Some g
    ∧ UI.log w' = (UI.log w0 ++ [Fetch endpoint f g])%list
    ∧ App.errorDetails (UI.ui w') = Some (App.error_text message endpoint)
    ∧ App.resultImage (UI.ui w') = None
    ∧ UI.next_url w' = UI.next_url w0.
Proof.
  cbv zeta. intros Hd Hmid Ht.
  destruct (Inv_reachable env evs) as [Hs _ _ _ _].
  set (w0 := UI.run env evs (UI.init env)) in *.
  destruct (start_enabled env w0 Hd Hs) as (f & g & Hf & Hg & Hstart).
  exists f, g. split; [done|]. split; [done|].
  assert (Hclick : UI.step env UI.ClickSubmit w0 = UI.start env w0).
  { simpl. by rewrite Hd. }
  rewrite Hclick, Hstart.
  set (w1 := UI.mkWorld _ _ _ _).
  destruct (run_quiet env mid w1 Hmid eq_refl eq_refl) as (Q1 & Q2 & Q3 & Q4 & Q5 & Q6).
  simpl. rewrite Q1. simpl. unfold UI.settle.
  rewrite (resume_failure _ _ _ _ _ Ht). simpl.
  by rewrite Q2, Q3, Q5, app_nil_r.
Qed.

Lemma request_keeps_click_configuration_witness :
  let mid := [UI.EditBackendUrl "http://elsewhere/"; UI.OnSlot UI.PdfSlot UI.RemoveFile] in
  let w' := UI.step Scenario.env (UI.Settle 0 Scenario.unreachable)
              (UI.run Scenario.env mid Scenario.submitted) in
  App.errorDetails (UI.ui w') = Some "Failed to fetch (URL: http://x/api/procesar/)"
  ∧ App.backendUrl (UI.ui w') = "http://elsewhere/"
  ∧ App.pdf (UI.ui w') = None.
Proof.
  cbv zeta.
  destruct (request_keeps_click_configuration Scenario.env Scenario.select_both
              [UI.EditBackendUrl "http://elsewhere/"; UI.OnSlot UI.PdfSlot UI.RemoveFile]
              Scenario.unreachable "Failed to fetch"
              eq_refl ltac:(repeat constructor) eq_refl)
    as (f & g & _ & _ & _ & He & _).
  split; [exact He|]. split; reflexivity.
Defined.

(** ** The settings *)

Section Settings.

Import App UI Trace.

Variable env : Env.

Lemma settings_step (ev : Event) (w : World) :
  backendUrl (ui (step env ev w))
  = match ev with EditBackendUrl v => v | _ => backendUrl (ui w) end
  ∧ showConfig (ui (step env ev w))
    = match ev with ToggleConfig => negb (showConfig (ui w)) | _ => showConfig (ui w) end.
Proof.
  destruct ev as [sl a| | |i o|v|]; simpl; try done.
  - destruct (foldl_onFileSelect sl (selections a) (ui w))
      as (_ & _ & _ & _ & _ & G6 & G7). by rewrite G6, G7.
  - destruct (submit_disabled (ui w)); [done|]. unfold start, handleProcess.
    by destruct (pdf (ui w)), (shp (ui w)).
  - by destruct (resultImage (ui w)).
  - destruct (inflight w !! i) as [p|]; [|done].
    unfold settle, handleProcess_resume. by destruct (try_body o).
Qed.

Lemma settings_run (evs : list Event) (w : World) :
  backendUrl (ui (run env evs w)) = last_edit (backendUrl (ui w)) evs
  ∧ showConfig (ui (run env evs w)) = toggled (showConfig (ui w)) evs.
Proof.
  revert w. induction evs as [|ev evs IH]; intros w; [done|].
  change (run env (ev :: evs) w) with (run env evs (step env ev w)).
  destruct (IH (step env ev w)) as [-> ->].
  destruct (settings_step ev w) as [-> ->].
  by destruct ev.
Qed.

End Settings.

(** X12: the backend URL is what was typed last into the settings input,
    or the build-time value (the empty string without one) if nothing was
    typed; no other event changes it, a reset included.  The settings
    input shows after an odd number of presses of the settings button.  A
    click on the enabled button fetches the endpoint made from that URL,
    or from the page's origin when it is empty. *)
Theorem backendUrl_follows_edits (env : App.Env) (evs : list UI.Event) :
  let w := UI.run env evs (UI.init env) in
  let url := Trace.last_edit (default "" (App.PUBLIC_BACKEND_URL env)) evs in
  App.backendUrl (UI.ui w) = url
  ∧ App.showConfig (UI.ui w) = Trace.toggled false evs
  ∧ (App.submit_disabled (UI.ui w) = false →
     ∃ f g,
       UI.log (UI.step env UI.ClickSubmit w)
       = (UI.log w ++ [Fetch (Url.replace_trailing_slash
                               (if String.eqb url "" then default "" (App.origin env)
                                else url)
                             +:+ "/api/procesar/") f g])%list).
Proof.
  cbv zeta. destruct (settings_run env evs (UI.init env)) as [H1 H2].
  destruct (Inv_reachable env evs) as [Hs _ _ _ _].
  set (w := UI.run env evs (UI.init env)) in *.
  split; [exact H1|]. split; [exact H2|].
  intros Hd. destruct (start_enabled env w Hd Hs) as (f & g & _ & _ & Hstart).
  exists f, g. simpl. rewrite Hd, Hstart. simpl. by rewrite H1.
Qed.

Lemma backendUrl_follows_edits_witness :
  ∃ f g,
    UI.log (UI.step Scenario.env UI.ClickSubmit
              (UI.run Scenario.env
                 (UI.EditBackendUrl "http://api/" :: UI.ClickReset :: Scenario.select_both)
                 (UI.init Scenario.env)))
    = [Fetch "http://api/api/procesar/" f g].
Proof.
  apply (backendUrl_follows_edits Scenario.env
           (UI.EditBackendUrl "http://api/" :: UI.ClickReset :: Scenario.select_both)).
  reflexivity.
Defined.

(** ** The fixed error text *)

(** X13: for a response that is not ok, the recorded text is the fixed
    [Error processing files] with the endpoint when the body parses to an
    object without a truthy [detail] (none, or an empty string, [null],
    [false] or zero), when it parses to a string, number, boolean or array,
    and when it does not parse and the status text is empty. *)
Theorem fallback_error_text (p : App.Pending) (r : App.Response) (fresh : ObjURL)
    (s : App.State) :
  App.ok r = false →
  (∃ fields, App.json r = Some (Json.JObj fields)
             ∧ Json.truthy (Json.get_field "detail" fields) = false)
  ∨ (∃ j, App.json r = Some j ∧ j ≠ Json.JNull ∧ ∀ fields, j ≠ Json.JObj fields)
  ∨ (App.json r = None ∧ App.statusText r = "") →
  App.errorDetails (App.handleProcess_resume p (App.Resolved r) fresh s).1.1
  = Some ("Error processing files (URL: " +:+ App.p_endpoint p +:+ ")").
Proof.
  intros Hok H.
  assert (Hm : App.thrown_message r = "Error processing files").
  { unfold App.thrown_message.
    destruct H as [(fields & -> & Ht) | [(j & -> & Hn & Ho) | [-> ->]]].
    - simpl. unfold Json.or_else. rewrite Ht.
      by destruct (Json.get_field "detail" fields).
    - destruct j; try done. by destruct (Ho fields).
    - reflexivity. }
  rewrite (resume_failure _ _ _ _ "Error processing files").
  - reflexivity.
  - simpl. by rewrite Hok, Hm.
Qed.

Lemma fallback_error_text_witness :
  App.errorDetails
    (UI.ui (UI.step Scenario.env
              (UI.Settle 0 (App.Resolved
                              (App.mkResponse false "Bad Request"
                                 (Some (Json.JObj [("detail", Json.JStr "")])) (inr ""))))
              Scenario.submitted))
  = Some "Error processing files (URL: http://x/api/procesar/)".
Proof.
  apply (fallback_error_text Scenario.pending
           (App.mkResponse false "Bad Request"
              (Some (Json.JObj [("detail", Json.JStr "")])) (inr ""))
           0 (UI.ui Scenario.submitted) eq_refl).
  left. eexists. split; reflexivity.
Defined.

(** ** The scroll to the results *)

(** X14: in every state the page can reach, an event makes the page
    scroll to the results exactly when it is the successful completion of
    the request in flight; no selection, click, failure or reset scrolls. *)
Theorem autoScroll_iff_success (env : App.Env) (evs : list UI.Event) (ev : UI.Event) :
  let w := UI.run env evs (UI.init env) in
  Render.autoScroll (UI.ui w) (UI.ui (UI.step env ev w)) = true
  ↔ ∃ i o p b, ev = UI.Settle i o ∧ UI.inflight w !! i = Some p
               ∧ App.try_body o = inr b.
Proof.
  cbv zeta. destruct (Inv_reachable env evs) as [Hs _ _ _ _].
  set (w := UI.run env evs (UI.init env)) in *.
  assert (Hsame : ∀ s, App.resultImage s = App.resultImage (UI.ui w) →
                       Render.autoScroll (UI.ui w) s = false).
  { intros s E. unfold Render.autoScroll. rewrite E.
    destruct (App.resultImage (UI.ui w)); [|done]. by rewrite bool_decide_eq_true_2. }
  assert (Hnone : ∀ s, App.resultImage s = None → Render.autoScroll (UI.ui w) s = false).
  { intros s E. unfold Render.autoScroll. by rewrite E. }
  destruct ev as [sl a| | |i o|v|].
  - simpl. destruct (foldl_onFileSelect sl (UI.selections a) (UI.ui w))
      as (_ & _ & _ & G4 & _).
    rewrite (Hsame _ G4). split; [done | by intros (? & ? & ? & ? & ? & _)].
  - split; [|by intros (? & ? & ? & ? & ? & _)].
    simpl. destruct (App.submit_disabled (UI.ui w)) eqn:Hd.
    + by rewrite Hsame.
    + destruct (start_enabled env w Hd Hs) as (f & g & _ & _ & ->).
      by rewrite Hnone.
  - split; [|by intros (? & ? & ? & ? & ? & _)].
    simpl. destruct (App.resultImage (UI.ui w)) eqn:E.
    + by rewrite Hnone.
    + rewrite Hsame; done.
  - simpl. destruct (UI.inflight w !! i) as [p|] eqn:Hl.
    + destruct (shape_lookup _ _ _ Hs Hl) as (Hi & Hinf & Hp & Hres & Herr).
      unfold UI.settle. destruct (App.try_body o) as [message|b] eqn:Ht.
      * rewrite (resume_failure _ _ _ _ _ Ht). simpl.
        rewrite Hsame by done.
        split; [done|]. intros (i' & o' & p' & b' & [= <- <-] & _ & Hb). congruence.
      * rewrite (resume_success _ _ _ _ _ Ht). simpl.
        split; [|intros _; unfold Render.autoScroll; simpl; by rewrite Hres].
        intros _. by exists i, o, p, b.
    + rewrite Hsame by done.
      split; [done|]. intros (i' & o' & p' & b' & [= <- <-] & Hl' & _). congruence.
  - simpl. rewrite Hsame by done. split; [done | by intros (? & ? & ? & ? & ? & _)].
  - simpl. rewrite Hsame by done. split; [done | by intros (? & ? & ? & ? & ? & _)].
Qed.

(** ** Runs without a failure *)

Section NoFailure.

Import App UI Trace.

Variable env : Env.

Lemma exact_step (ev : Event) (w : World) :
  succeeds ev = true → Inv w →
  live_urls (log w) = list_to_set (retained w) →
  live_urls (log (step env ev w)) = list_to_set (retained (step env ev w)).
Proof.
  intros Hok [Hs Hr _ _ _] HL. destruct ev as [sl a| | |i o|v|]; simpl.
  - destruct (foldl_onFileSelect sl (selections a) (ui w)) as (_ & _ & _ & G4 & _).
    unfold retained in *. simpl. by rewrite G4.
  - destruct (submit_disabled (ui w)) eqn:Hd; [done|].
    destruct (submit_enabled_inv _ Hd) as (_ & _ & _ & _ & Hp).
    pose proof (shape_idle _ Hs Hp) as Hnil.
    destruct (start_enabled env w Hd Hs) as (f & g & _ & _ & ->).
    simpl. rewrite live_urls_snoc_fetch, HL.
    unfold retained. simpl. rewrite Hnil, app_nil_r.
    by destruct (resultImage (ui w)).
  - destruct (resultImage (ui w)) as [u0|] eqn:Hres; [|done].
    pose proof (shape_displayed _ _ Hs Hres) as Hnil.
    unfold reset, handleReset. rewrite Hres. simpl.
    rewrite live_urls_snoc_revoke, HL.
    unfold retained. simpl. rewrite Hres, Hnil. simpl. set_solver.
  - destruct (inflight w !! i) as [p|] eqn:Hl; [|done].
    destruct (shape_lookup _ _ _ Hs Hl) as (-> & Hinf & Hp & Hres & Herr).
    simpl in Hok. unfold settle.
    destruct (try_body o) as [message|b] eqn:Ht; [done|].
    rewrite (resume_success _ _ _ _ _ Ht).
    unfold retained in *. simpl. rewrite Hinf. simpl.
    rewrite Hres, Hinf in HL, Hr. simpl in HL, Hr.
    destruct (p_resultImage p) as [old|]; simpl in *.
    + destruct (Hr old) as [Hlt _]; [apply list_elem_of_here|].
      change (log w ++ [CreateObjectURL (next_url w); RevokeObjectURL old])%list
        with (log w ++ [CreateObjectURL (next_url w)] ++ [RevokeObjectURL old])%list.
      rewrite app_assoc, live_urls_snoc_revoke, live_urls_snoc_create, HL.
      assert (Hne : next_url w ≠ old) by lia. clear -Hne. set_solver.
    + rewrite live_urls_snoc_create, HL. set_solver.
  - done.
  - done.
Qed.

Lemma exact_run (evs : list Event) :
  Forall (fun ev => succeeds ev = true) evs →
  live_urls (log (run env evs (init env))) = list_to_set (retained (run env evs (init env))).
Proof.
  induction evs as [|ev evs IH] using rev_ind; intros Hall; [reflexivity|].
  apply Forall_app in Hall as [Hevs Hev]. apply List.Forall_inv in Hev.
  rewrite run_app.
  change (run env [ev] (run env evs (init env)))
    with (step env ev (run env evs (init env))).
  apply exact_step; [exact Hev | apply Inv_reachable | by apply IH].
Qed.

End NoFailure.

(** X15: while the component is mounted, in a run of events in which no
    request fails, the browser holds exactly the object URLs the component
    can still name: the one on display, or the one the request in flight
    has captured, at most one in all.  (This speaks of the mounted page
    only: the effect of lines 165-169 returns no cleanup, so nothing is
    released when the component is unmounted.) *)
Theorem browser_holds_retained_without_failure (env : App.Env) (evs : list UI.Event) :
  Forall (fun ev => Trace.succeeds ev = true) evs →
  let w := UI.run env evs (UI.init env) in
  UI.live_urls (UI.log w) = list_to_set (UI.retained w)
  ∧ (length (UI.retained w) ≤ 1)%nat
  ∧ (App.isProcessing (UI.ui w) = false →
     UI.live_urls (UI.log w) = list_to_set (option_list (App.resultImage (UI.ui w)))).
Proof.
  intros Hall. cbv zeta. pose proof (exact_run env evs Hall) as HL.
  destruct (Inv_reachable env evs) as [Hs _ _ _ _].
  set (w := UI.run env evs (UI.init env)) in *.
  split; [exact HL|]. split.
  - unfold UI.retained, UI.shape in *.
    destruct (UI.inflight w) as [|p [|q r]]; try done.
    + rewrite app_nil_r. by destruct (App.resultImage (UI.ui w)); simpl; lia.
    + destruct Hs as (_ & -> & _). simpl. by destruct (App.p_resultImage p); simpl; lia.
  - intros Hp. rewrite HL. unfold UI.retained.
    by rewrite (shape_idle _ Hs Hp), app_nil_r.
Qed.

Lemma browser_holds_retained_without_failure_witness :
  UI.live_urls
    (UI.log (UI.run Scenario.env
               (Scenario.select_both
                  ++ [UI.ClickSubmit; UI.Settle 0 Scenario.image;
                      UI.ClickSubmit; UI.Settle 0 Scenario.image])
               (UI.init Scenario.env)))
  = {[1]} ∪ ∅.
Proof.
  apply (browser_holds_retained_without_failure Scenario.env
           (Scenario.select_both
              ++ [UI.ClickSubmit; UI.Settle 0 Scenario.image;
                  UI.ClickSubmit; UI.Settle 0 Scenario.image])).
  - unfold Scenario.select_both. simpl. repeat constructor.
  - reflexivity.
Defined.

Example thrown_message_number_detail :
  App.thrown_message
    (App.mkResponse false "Bad Request"
       (Some (Json.JObj [("detail", Json.JNum (Json.mkNumber false "1e+21"))])) (inr ""))
  = "1e+21".
Proof. reflexivity. Qed.
